(** * GL reconciliation checker: the rule evaluator and its coercions

    A shallow embedding of [evaluate], [to_bool] and [parse_date_safe] of
    [streamlit_app.py] and [streamlit_gl_recon_simple.py].

    Python floats are IEEE binary64 numbers, here Rocq's primitive floats;
    Python integers are [Z]; a cell of a data-frame row and a value of the
    criteria dictionary is a dynamically typed [pyval]; a raised exception is
    the [Raise] outcome of the [result] monad. *)

From Stdlib Require Import ZArith String Ascii List Bool Lia.
From Stdlib Require Import Floats DecimalString.
From stdpp Require Import gmap strings.

Import ListNotations.
Local Open Scope string_scope.
Local Open Scope Z_scope.

(** ** Exceptions and the error monad *)

Inductive exn : Type :=
  | ValueError
  | TypeError
  | OverflowError.

Inductive result (A : Type) : Type :=
  | Ok (a : A)
  | Raise (e : exn).

Arguments Ok {A} a.
Arguments Raise {A} e.

Definition bind {A B : Type} (m : result A) (k : A -> result B) : result B :=
  match m with
  | Ok a => k a
  | Raise e => Raise e
  end.

Declare Scope py_scope.
Delimit Scope py_scope with py.
Notation "'let*' x ':=' m 'in' k" := (bind m (fun x => k))
  (at level 10, x name, m at level 100, k at level 200) : py_scope.
Local Open Scope py_scope.

(** A [for] loop that appends one element per iteration: the first
    exception leaves the loop and nothing is returned. *)
Fixpoint mapM {A B : Type} (f : A -> result B) (l : list A) : result (list B) :=
  match l with
  | [] => Ok []
  | a :: l' =>
      let* b := f a in
      let* bs := mapM f l' in
      Ok (b :: bs)
  end.

(** ** Calendar dates

    [datetime.date] and its subtraction: [(a - b).days] is the difference of
    the proleptic Gregorian ordinals, as in CPython's [_ymd2ord]. *)

Record date : Type := mkDate { year : Z; month : Z; day : Z }.

Definition is_leap (y : Z) : bool :=
  (y mod 4 =? 0) && (negb (y mod 100 =? 0) || (y mod 400 =? 0)).

Definition days_before_year (y : Z) : Z :=
  let y' := y - 1 in
  y' * 365 + y' / 4 - y' / 100 + y' / 400.

Definition days_in_month (y m : Z) : Z :=
  if m =? 2 then (if is_leap y then 29 else 28)
  else if (m =? 4) || (m =? 6) || (m =? 9) || (m =? 11) then 30
  else 31.

Definition days_before_month (y m : Z) : Z :=
  fold_right Z.add 0
    (map (days_in_month y) (map Z.of_nat (seq 1 (Z.to_nat (m - 1))))).

Definition toordinal (d : date) : Z :=
  days_before_year (year d) + days_before_month (year d) (month d) + day d.

(** [(a - b).days] *)
Definition days_between (a b : date) : Z := toordinal a - toordinal b.

(** What [pd.to_datetime(x).date()] returns: a calendar date, or pandas'
    not-a-time [NaT], which is neither [None] nor a date and is true in a
    condition. *)
Inductive pydate : Type :=
  | Date (d : date)
  | NaT.

(** The [days] of a difference: a number of days, or NaN for the
    difference of two NaT. *)
Inductive day_count : Type :=
  | Days (z : Z)
  | NanDays.

(** The reading of the clock by [datetime.utcnow()]. *)
Record datetime : Type :=
  mkDatetime { dt_year : Z; dt_month : Z; dt_day : Z;
               dt_hour : Z; dt_minute : Z; dt_second : Z }.

(** ** Values of cells and of criteria entries *)

Inductive pyval : Type :=
  | PyNone
  | PyBool (b : bool)
  | PyInt (z : Z)
  | PyFloat (f : float)
  | PyStr (s : string)
  | PyTimestamp (d : date).

(** A row of the data frame and the criteria dictionary are maps from names
    to values. *)

(** [r.get(k)] of a pandas Series: [None] for a column that is not there *)
Definition row_get (r : gmap string pyval) (k : string) : pyval :=
  default PyNone (r !! k).

(** [crit.get(k, d)] of a dict *)
Definition dict_get (crit : gmap string pyval) (k : string) (d : pyval) : pyval :=
  default d (crit !! k).

(** ** Text and number conversions of the runtime

    The conversions between text and numbers or dates are the interpreter's
    and pandas' parsers and printers; the evaluator is verified for every
    behaviour they may have. [None] stands for a raised exception. *)

Class PyRuntime : Type := {
  (** [pd.to_datetime(x).date()]; [None] when either call raises *)
  to_datetime_date : pyval -> option pydate;
  (** [float(s)] for a [str]; [None] is [ValueError] *)
  float_of_str : string -> option float;
  (** [int(s)] for a [str]; [None] is [ValueError] *)
  int_of_str : string -> option Z;
  (** [str(f)] for a [float] *)
  str_of_float : float -> string;
  (** [str(t)] for a pandas [Timestamp] *)
  str_of_timestamp : date -> string;
  (** [(d - NaT).days] for a [datetime.date] [d] *)
  date_minus_NaT : date -> result day_count
}.

(** ** Builtins on numbers *)

(** [str(n)] for an [int] *)
Definition str_of_int (z : Z) : string := NilZero.string_of_int (Z.to_int z).

(** [bool(f)] for a [float]: false for [0.0] and [-0.0] only (a NaN is true) *)
Definition float_truthy (f : float) : bool := negb (PrimFloat.eqb f 0%float).

(** [float(n)] for an [int]: the nearest binary64 number, ties to even;
    [OverflowError] beyond the range *)
Definition float_of_int (z : Z) : result float :=
  match binary_normalize prec emax z 0 false with
  | S754_infinity _ => Raise OverflowError
  | sf => Ok (SF2Prim sf)
  end.

(** [int(f)] for a [float]: truncation toward zero; [ValueError] for a NaN,
    [OverflowError] for an infinity *)
Definition int_of_float (f : float) : result Z :=
  match Prim2SF f with
  | S754_nan => Raise ValueError
  | S754_infinity _ => Raise OverflowError
  | S754_zero _ => Ok 0
  | S754_finite s m e =>
      let a := if 0 <=? e then Z.pos m * 2 ^ e else Z.pos m / 2 ^ (- e) in
      Ok (if s then - a else a)
  end.

(** [max(a, b)] on floats: the builtin keeps its first argument unless the
    second compares greater. *)
Definition py_max (a b : float) : float := if PrimFloat.ltb a b then b else a.

(** ** Builtins on values *)

(** Truth value of [x] in [x or d], [bool(x)], [if x] *)
Definition py_truthy (x : pyval) : bool :=
  match x with
  | PyNone => false
  | PyBool b => b
  | PyInt z => negb (z =? 0)
  | PyFloat f => float_truthy f
  | PyStr s => negb (String.eqb s "")
  | PyTimestamp _ => true
  end.

(** [x or d] *)
Definition py_or (x d : pyval) : pyval := if py_truthy x then x else d.

(** [pd.isna(x)] on a scalar *)
Definition isna (x : pyval) : bool :=
  match x with
  | PyNone => true
  | PyFloat f => PrimFloat.is_nan f
  | _ => false
  end.

Definition is_none (x : pyval) : bool :=
  match x with
  | PyNone => true
  | _ => false
  end.

Section Builtins.
Context `{PyRuntime}.

(** [float(x)] *)
Definition py_float (x : pyval) : result float :=
  match x with
  | PyNone => Raise TypeError
  | PyBool b => Ok (if b then 1%float else 0%float)
  | PyInt z => float_of_int z
  | PyFloat f => Ok f
  | PyStr s => match float_of_str s with Some f => Ok f | None => Raise ValueError end
  | PyTimestamp _ => Raise TypeError
  end.

(** [int(x)] *)
Definition py_int (x : pyval) : result Z :=
  match x with
  | PyNone => Raise TypeError
  | PyBool b => Ok (if b then 1 else 0)
  | PyInt z => Ok z
  | PyFloat f => int_of_float f
  | PyStr s => match int_of_str s with Some z => Ok z | None => Raise ValueError end
  | PyTimestamp _ => Raise TypeError
  end.

(** [str(x)] *)
Definition py_str (x : pyval) : string :=
  match x with
  | PyNone => "None"
  | PyBool b => if b then "True" else "False"
  | PyInt z => str_of_int z
  | PyFloat f => str_of_float f
  | PyStr s => s
  | PyTimestamp d => str_of_timestamp d
  end.
End Builtins.

(** ** Text

    A [string] is the sequence of the code points of a Python [str], for
    code points below 256. *)

(** [c.isspace()] *)
Definition isspace (c : ascii) : bool :=
  let n := Z.of_N (N_of_ascii c) in
  ((9 <=? n) && (n <=? 13)) || ((28 <=? n) && (n <=? 32)) || (n =? 133) || (n =? 160).

(** [c.lower()] *)
Definition lower_char (c : ascii) : ascii :=
  let n := Z.of_N (N_of_ascii c) in
  if ((65 <=? n) && (n <=? 90)) || ((192 <=? n) && (n <=? 214)) || ((216 <=? n) && (n <=? 222))
  then ascii_of_N (Z.to_N (n + 32))
  else c.

(** [s.lower()] *)
Fixpoint lower (s : string) : string :=
  match s with
  | EmptyString => EmptyString
  | String c s' => String (lower_char c) (lower s')
  end.

(** [s.lstrip()] *)
Fixpoint lstrip (s : string) : string :=
  match s with
  | EmptyString => EmptyString
  | String c s' => if isspace c then lstrip s' else s
  end.

(** [s.rstrip()] *)
Fixpoint rstrip (s : string) : string :=
  match s with
  | EmptyString => EmptyString
  | String c s' =>
      match rstrip s' with
      | EmptyString => if isspace c then EmptyString else String c EmptyString
      | t => String c t
      end
  end.

(** [s.strip()] *)
Definition strip (s : string) : string := rstrip (lstrip s).

(** [x in l] for a list of strings *)
Definition str_in (x : string) (l : list string) : bool := existsb (String.eqb x) l.

(** [n] written with at least [w] digits, zeros in front *)
Definition zero_pad (w : nat) (n : Z) : string :=
  let s := str_of_int n in
  string_of_list_ascii (repeat "0"%char (w - String.length s)) ++ s.

(** [now.strftime("%Y%m%d%H%M%S")] *)
Definition strftime_run_id (now : datetime) : string :=
  zero_pad 4 (dt_year now) ++ zero_pad 2 (dt_month now) ++ zero_pad 2 (dt_day now)
  ++ zero_pad 2 (dt_hour now) ++ zero_pad 2 (dt_minute now) ++ zero_pad 2 (dt_second now).

(** The quotient of [n] by [d] rounded to the nearest integer, ties to even
    ([0 <= n], [0 < d]). *)
Definition div_half_even (n d : Z) : Z :=
  let q := n / d in
  match 2 * (n mod d) ?= d with
  | Lt => q
  | Gt => q + 1
  | Eq => if Z.even q then q else q + 1
  end.

(** Digits, last one first, with a comma after every third one. *)
Fixpoint commas_rev (l : list ascii) (n : nat) : list ascii :=
  match l with
  | [] => []
  | c :: l' =>
      match n with
      | 3%nat => ","%char :: c :: commas_rev l' 1
      | _ => c :: commas_rev l' (S n)
      end
  end.

Definition with_commas (s : string) : string :=
  string_of_list_ascii (rev (commas_rev (rev (list_ascii_of_string s)) 0)).

(** [f"{x:,.2f}"]: the exact value of [x] rounded to hundredths, ties to
    even, the integer part in groups of three digits. *)
Definition format_money (x : float) : string :=
  match Prim2SF x with
  | S754_nan => "nan"
  | S754_infinity s => if s then "-inf" else "inf"
  | S754_zero s => if s then "-0.00" else "0.00"
  | S754_finite s m e =>
      let cents :=
        if 0 <=? e then Z.pos m * 2 ^ e * 100
        else div_half_even (Z.pos m * 100) (2 ^ (- e)) in
      (if s then "-" else "")
      ++ with_commas (str_of_int (cents / 100)) ++ "." ++ zero_pad 2 (cents mod 100)
  end.

(** [sep.join(l)] *)
Definition join (sep : string) (l : list string) : string := String.concat sep l.

(** ** The two helpers of the source *)

Section Helpers.
Context `{PyRuntime}.

(** [parse_date_safe]: a missing value is [None]; when the conversion
    returns, what it returns is passed on, a date or [NaT]; whatever the conversion
    raises is caught and gives [None] as well. *)
Definition parse_date_safe (x : pyval) : option pydate :=
  if isna x || is_none x then None
  else to_datetime_date x.
End Helpers.

(** [to_bool]: [isinstance(x, (int, float))] holds of a [bool] too. *)
Definition to_bool (x : pyval) : bool :=
  match x with
  | PyStr s => str_in (lower (strip s)) ["y"; "yes"; "true"; "1"]
  | PyBool b => b
  | PyInt z => negb (z =? 0)
  | PyFloat f => float_truthy f
  | PyNone | PyTimestamp _ => false
  end.

(** ** The evaluator *)

Inductive severity_t : Type := Low | Medium | High.
Inductive status_t : Type := Pass | Warn | Fail.

(** The texts the source uses for them. *)
Definition severity_name (s : severity_t) : string :=
  match s with Low => "low" | Medium => "medium" | High => "high" end.

Definition status_name (s : status_t) : string :=
  match s with Pass => "pass" | Warn => "warn" | Fail => "fail" end.

Definition severity_eqb (a b : severity_t) : bool :=
  match a, b with
  | Low, Low | Medium, Medium | High, High => true
  | _, _ => false
  end.

(** The order low < medium < high. *)
Definition severity_rank (s : severity_t) : Z :=
  match s with Low => 0 | Medium => 1 | High => 2 end.

Definition severity_le (a b : severity_t) : Prop := severity_rank a <= severity_rank b.

(** The locals of one iteration of the loop once the cells of the row and
    the entries of the criteria are converted. *)
Record locals : Type := mkLocals {
  entity : pyval;
  account_id : pyval;
  account_name : pyval;
  period_end : option pydate;
  gl_bal : float;
  sub_bal : float;
  preparer : string;
  approver : string;
  approved_on : option pydate;
  items_over : Z;
  plan : bool;
  evidence : pyval;
  tol_abs : float;
  tol_pct : float;
  sod_required : bool;
  sla_days : Z;
  delta_days : option day_count;
  allow_over_with_plan : bool
}.

Section Conversions.
Context `{PyRuntime}.

(** [(approved_on - period_end).days]. Two dates give the number of days
    between them; two NaT give NaT, whose [days] is NaN; NaT minus a date
    raises [TypeError]. *)
Definition days_of_difference (a p : pydate) : result day_count :=
  match a, p with
  | Date a, Date p => Ok (Days (days_between a p))
  | NaT, NaT => Ok NanDays
  | NaT, Date _ => Raise TypeError
  | Date a, NaT => date_minus_NaT a
  end.

(** The conversions of one iteration, the raising ones ([float], [int], the
    difference of the dates) in the order of the source. [delta_days] is
    computed when [approved_on and period_end] is true, which it is for a
    date and for NaT, and is [None] when the branch is not taken. The batch
    file also converts [prepared_on], which is not used and cannot raise. *)
Definition convert (crit r : gmap string pyval) : result locals :=
  let entity := row_get r "entity" in
  let account_id := row_get r "account_id" in
  let account_name := row_get r "account_name" in
  let period_end := parse_date_safe (row_get r "period_end_date") in
  let* gl_bal := py_float (py_or (row_get r "gl_ending_balance") (PyFloat 0)) in
  let* sub_bal := py_float (py_or (row_get r "subledger_ending_balance") (PyFloat 0)) in
  let preparer := py_str (py_or (row_get r "preparer") (PyStr "")) in
  let approver := py_str (py_or (row_get r "approver") (PyStr "")) in
  let approved_on := parse_date_safe (row_get r "approved_on") in
  let* items_over := py_int (py_or (row_get r "items_over_aging_threshold") (PyInt 0)) in
  let plan := to_bool (row_get r "action_plan_present") in
  let evidence := py_or (row_get r "documentation_links") (PyStr "") in
  let* tol_abs := py_float (dict_get crit "tieout_tolerance_abs" (PyFloat 0)) in
  let* tol_pct := py_float (dict_get crit "tieout_tolerance_pct" (PyFloat 0)) in
  let sod_required := py_truthy (dict_get crit "require_sod" (PyBool true)) in
  let* sla_days := py_int (dict_get crit "timeliness_sla_days" (PyInt 5)) in
  let* delta_days :=
    match approved_on, period_end with
    | Some a, Some p => let* d := days_of_difference a p in Ok (Some d)
    | _, _ => Ok None
    end in
  let allow_over_with_plan :=
    py_truthy (dict_get crit "allow_items_over_threshold_with_plan" (PyBool true)) in
  Ok (mkLocals entity account_id account_name period_end gl_bal sub_bal preparer
        approver approved_on items_over plan evidence tol_abs tol_pct sod_required
        sla_days delta_days allow_over_with_plan).
End Conversions.

(** *** The four checks *)

(** Tie-out *)
Definition variance (c : locals) : float := (gl_bal c - sub_bal c)%float.

Definition tol (c : locals) : float :=
  py_max (tol_abs c) (PrimFloat.abs (gl_bal c) * tol_pct c)%float.

Definition tieout_pass (c : locals) : bool :=
  (PrimFloat.abs (variance c) <=? tol c)%float.

(** SoD *)
Definition sod_pass (c : locals) : bool :=
  if sod_required c then negb (String.eqb (preparer c) (approver c)) else true.

(** Timeliness: [sla_over] stays [None] and [timely_pass] stays [True]
    unless the branch is taken. With a NaN [delta_days], [max(0, nan)] is
    its first argument 0, and [nan <= sla_days] is false. *)
Definition sla_over (c : locals) : option Z :=
  match delta_days c with
  | Some (Days d) => Some (Z.max 0 (d - sla_days c))
  | Some NanDays => Some 0
  | None => None
  end.

Definition timely_pass (c : locals) : bool :=
  match delta_days c with
  | Some (Days d) => d <=? sla_days c
  | Some NanDays => false
  | None => true
  end.

(** Aging (summary-level) *)
Definition aging_pass (c : locals) : bool :=
  (items_over c =? 0) || (allow_over_with_plan c && plan c).

(** *** Aggregation

    The running pair of the failure list and the severity, and the four
    [if not ..._pass] statements in their order. *)
Record agg : Type := mkAgg { failures : list string; severity : severity_t }.

Definition agg_init : agg := mkAgg [] Low.

Definition step_tieout (c : locals) (a : agg) : agg :=
  if negb (tieout_pass c) then
    mkAgg (failures a ++ ["Tie-out variance " ++ format_money (variance c)
                          ++ " exceeds tolerance " ++ format_money (tol c)])
          High
  else a.

Definition step_sod (c : locals) (a : agg) : agg :=
  if negb (sod_pass c) then
    mkAgg (failures a ++ ["Segregation of duties failed (preparer equals approver)"])
          High
  else a.

Definition step_timely (c : locals) (a : agg) : agg :=
  if negb (timely_pass c) then
    mkAgg (failures a ++ ["Approval exceeded SLA by "
                          ++ match sla_over c with
                             | Some n => str_of_int n
                             | None => "None"
                             end ++ " day(s)"])
          (if negb (severity_eqb (severity a) High) then Medium else High)
  else a.

Definition step_aging (c : locals) (a : agg) : agg :=
  if negb (aging_pass c) then
    mkAgg (failures a ++ ["Aged items without action plan"])
          (if severity_eqb (severity a) Low then Medium else severity a)
  else a.

(** The checks in the order they are applied. *)
Definition steps : list (locals -> agg -> agg) :=
  [step_tieout; step_sod; step_timely; step_aging].

(** The running value after the first [n] checks. *)
Definition agg_after (n : nat) (c : locals) : agg :=
  fold_left (fun a step => step c a) (firstn n steps) agg_init.

Definition aggregate (c : locals) : agg :=
  step_aging c (step_timely c (step_sod c (step_tieout c agg_init))).

Definition status (c : locals) : status_t :=
  match failures (aggregate c) with
  | [] => Pass
  | _ :: _ => if severity_eqb (severity (aggregate c)) High then Fail else Warn
  end.

Definition rationale (c : locals) : string :=
  match failures (aggregate c) with
  | [] => "All checks passed within thresholds."
  | _ :: _ => join " | " (failures (aggregate c))
  end.

(** *** The results *)

Record EvaluationResult : Type := mkResult {
  res_entity : pyval;
  res_account_id : pyval;
  res_account_name : pyval;
  res_period_end_date : option pydate;
  res_status : status_t;
  res_severity : severity_t;
  res_rationale : string;
  res_variance_amount : float;
  res_sla_days_over : Z;
  res_sod_violation : bool;
  res_aged_items_flag : bool;
  res_evidence_link : pyval
}.

(** The dictionary appended to [results]. *)
Definition result_of (c : locals) : EvaluationResult :=
  {| res_entity := entity c;
     res_account_id := account_id c;
     res_account_name := account_name c;
     res_period_end_date := period_end c;
     res_status := status c;
     res_severity := severity (aggregate c);
     res_rationale := rationale c;
     res_variance_amount := variance c;
     res_sla_days_over := match sla_over c with Some n => n | None => 0 end;
     res_sod_violation := negb (sod_pass c);
     res_aged_items_flag := negb (aging_pass c);
     res_evidence_link := evidence c |}.

Section Evaluate.
Context `{PyRuntime}.

(** The body of the loop. *)
Definition evaluate_row (crit r : gmap string pyval) : result EvaluationResult :=
  let* c := convert crit r in
  Ok (result_of c).
End Evaluate.

(** [evaluate] of [streamlit_app.py]: [run_id] is read from the clock and
    not used. *)
Module App.
Section Evaluate.
Context `{PyRuntime}.

Definition evaluate (now : datetime) (df : list (gmap string pyval))
    (crit : gmap string pyval) (checklist_version : string)
    : result (list EvaluationResult) :=
  let run_id := strftime_run_id now in
  mapM (evaluate_row crit) df.
End Evaluate.
End App.

(** [evaluate] of [streamlit_gl_recon_simple.py]: every dictionary carries
    the run identifier and the version label besides. *)
Module Simple.
Record BatchResult : Type := mkBatch {
  base : EvaluationResult;
  agent_run_id : string;
  checklist_version : string
}.

Section Evaluate.
Context `{PyRuntime}.

Definition evaluate (now : datetime) (df : list (gmap string pyval))
    (crit : gmap string pyval) (checklist_version : string)
    : result (list BatchResult) :=
  let run_id := strftime_run_id now in
  mapM (fun r =>
          let* res := evaluate_row crit r in
          Ok (mkBatch res run_id checklist_version)) df.
End Evaluate.
End Simple.

(** ** Closed inputs

    A runtime for closed evaluations: a [Timestamp] converts to its date,
    the texts [''], ['NaT'] and ['nan'] convert to NaT as in pandas, and a
    NaN prints as [nan]; the rows evaluated below hold no other text in a
    numeric or date cell and no other float in a text cell, except where the
    text is one no parser accepts. No evaluation below subtracts NaT from a
    date. *)
Definition sample_runtime : PyRuntime :=
  {| to_datetime_date := fun x =>
       match x with
       | PyTimestamp d => Some (Date d)
       | PyStr s => if existsb (String.eqb s) [""; "NaT"; "nan"] then Some NaT else None
       | _ => None
       end;
     float_of_str := fun _ => None;
     int_of_str := fun _ => None;
     str_of_float := fun _ => "nan";
     str_of_timestamp := fun _ => "";
     date_minus_NaT := fun _ => Raise TypeError |}.

(** The binary64 number nearest to 0.002, the value of the literal [0.002]. *)
Definition two_thousandths : float := 0x1.0624dd2f1a9fcp-9%float.

(** The default criteria of the batch file's [main]. *)
Definition default_crit : gmap string pyval :=
  <["timeliness_sla_days" := PyInt 5]>
  (<["tieout_tolerance_abs" := PyFloat 1000]>
  (<["tieout_tolerance_pct" := PyFloat two_thousandths]>
  (<["require_sod" := PyBool true]>
  (<["allow_items_over_threshold_with_plan" := PyBool true]>
  (<["aging_threshold_days" := PyInt 60]> ∅))))).

(** A row whose every check passes under [default_crit]. *)
Definition clean_row : gmap string pyval :=
  <["entity" := PyStr "US01"]>
  (<["account_id" := PyInt 1000]>
  (<["account_name" := PyStr "Cash"]>
  (<["period_end_date" := PyTimestamp (mkDate 2024 1 31)]>
  (<["gl_ending_balance" := PyFloat 100000]>
  (<["subledger_ending_balance" := PyFloat 100500]>
  (<["preparer" := PyStr "J.Lee"]>
  (<["approver" := PyStr "M.Chen"]>
  (<["approved_on" := PyTimestamp (mkDate 2024 2 3)]>
  (<["items_over_aging_threshold" := PyInt 0]>
  (<["action_plan_present" := PyStr "Yes"]> ∅)))))))))).

(** [clean_row] with the count of aged items left blank: pandas reads a
    blank cell of a numeric column as NaN. *)
Definition blank_count_row : gmap string pyval :=
  <["items_over_aging_threshold" := PyFloat nan]> clean_row.

(** [clean_row] with a GL balance that is no number. *)
Definition text_balance_row : gmap string pyval :=
  <["gl_ending_balance" := PyStr "n/a"]> clean_row.

(** [clean_row] with both dates an empty text. *)
Definition blank_dates_row : gmap string pyval :=
  <["approved_on" := PyStr ""]> (<["period_end_date" := PyStr ""]> clean_row).

(** [clean_row] with the text [NaT] for the date of approval. *)
Definition nat_approval_row : gmap string pyval :=
  <["approved_on" := PyStr "NaT"]> clean_row.

(** [clean_row] without the two reviewers. *)
Definition no_reviewers_row : gmap string pyval :=
  delete "preparer" (delete "approver" clean_row).

Definition noon : datetime := mkDatetime 2024 2 5 12 0 0.

(** ** What the evaluator reads

    The columns of a row and the entries of the criteria that the body of
    the loop looks up. *)
Definition columns_read : list string :=
  ["entity"; "account_id"; "account_name"; "period_end_date"; "gl_ending_balance";
   "subledger_ending_balance"; "preparer"; "approver"; "approved_on";
   "items_over_aging_threshold"; "action_plan_present"; "documentation_links"].

Definition criteria_read : list string :=
  ["tieout_tolerance_abs"; "tieout_tolerance_pct"; "require_sod";
   "timeliness_sla_days"; "allow_items_over_threshold_with_plan"].

(** Values [float] accepts without a parser: floats and booleans. *)
Definition float_value (v : pyval) : bool :=
  match v with
  | PyBool _ | PyFloat _ => true
  | _ => false
  end.

(** Values [int] accepts without a parser: integers, booleans, and floats
    that are neither NaN nor infinite. *)
Definition count_value (v : pyval) : bool :=
  match v with
  | PyBool _ | PyInt _ => true
  | PyFloat f => negb (PrimFloat.is_nan f) && negb (PrimFloat.is_infinity f)
  | _ => false
  end.

(** A row whose balance cells are absent or floats and whose count of aged
    items is absent or a count. *)
Definition numeric_row (r : gmap string pyval) : bool :=
  (is_none (row_get r "gl_ending_balance")
   || float_value (row_get r "gl_ending_balance"))
  && (is_none (row_get r "subledger_ending_balance")
      || float_value (row_get r "subledger_ending_balance"))
  && (is_none (row_get r "items_over_aging_threshold")
      || count_value (row_get r "items_over_aging_threshold")).

(** Criteria whose tolerances are absent or floats and whose SLA is absent
    or a count, as the sidebar of the application and the defaults of the
    batch file build them. *)
Definition numeric_criteria (crit : gmap string pyval) : bool :=
  float_value (dict_get crit "tieout_tolerance_abs" (PyFloat 0))
  && float_value (dict_get crit "tieout_tolerance_pct" (PyFloat 0))
  && count_value (dict_get crit "timeliness_sla_days" (PyInt 5)).

(** A conversion that gave NaT. *)
Definition is_NaT (d : option pydate) : bool :=
  match d with
  | Some NaT => true
  | _ => false
  end.

(** A row neither of whose date cells converts to NaT: each converts to a
    date or to [None]. *)
Definition dated_row `{PyRuntime} (r : gmap string pyval) : bool :=
  negb (is_NaT (parse_date_safe (row_get r "approved_on")))
  && negb (is_NaT (parse_date_safe (row_get r "period_end_date"))).

(** A text of white space only. *)
Fixpoint all_space (s : string) : bool :=
  match s with
  | EmptyString => true
  | String c s' => isspace c && all_space s'
  end.

(** ** Regular expressions

    The part of Python's [re] that the pattern of [gsheet_to_csv_export]
    uses, with the search order of its backtracking matcher: a greedy
    repetition tries the longest run first, a lazy one the shortest, an
    optional part is tried before it is skipped, and the first way through
    the whole pattern wins. A continuation receives the text consumed, the
    text left and the groups captured so far. *)

Inductive regex : Type :=
  | Lit (l : string)                             (* literal text *)
  | Star (greedy : bool) (cs : ascii -> bool)    (* [cs*] and [cs*?] *)
  | Plus (cs : ascii -> bool)                    (* [cs+] *)
  | Group (n : nat) (r : regex)                  (* [(r)], group number [n] *)
  | Opt (r : regex)                              (* [(?:r)?] *)
  | Seq (r1 r2 : regex).

(** The text after the prefix [l] of [s], if [s] starts with [l]. *)
Fixpoint after_prefix (l s : string) : option string :=
  match l, s with
  | EmptyString, _ => Some s
  | String a l', String b s' => if Ascii.eqb a b then after_prefix l' s' else None
  | String _ _, EmptyString => None
  end.

Fixpoint star_greedy {R : Type} (cs : ascii -> bool) (s : string)
    (k : string -> string -> option R) : option R :=
  match s with
  | String c s' =>
      if cs c then
        match star_greedy cs s' (fun t rest => k (String c t) rest) with
        | Some out => Some out
        | None => k "" s
        end
      else k "" s
  | EmptyString => k "" s
  end.

Fixpoint star_lazy {R : Type} (cs : ascii -> bool) (s : string)
    (k : string -> string -> option R) : option R :=
  match k "" s with
  | Some out => Some out
  | None =>
      match s with
      | String c s' =>
          if cs c then star_lazy cs s' (fun t rest => k (String c t) rest) else None
      | EmptyString => None
      end
  end.

Fixpoint re_match {R : Type} (r : regex) (s : string) (caps : gmap nat string)
    (k : string -> string -> gmap nat string -> option R) : option R :=
  match r with
  | Lit l =>
      match after_prefix l s with
      | Some rest => k l rest caps
      | None => None
      end
  | Star true cs => star_greedy cs s (fun t rest => k t rest caps)
  | Star false cs => star_lazy cs s (fun t rest => k t rest caps)
  | Plus cs =>
      match s with
      | String c s' =>
          if cs c then star_greedy cs s' (fun t rest => k (String c t) rest caps)
          else None
      | EmptyString => None
      end
  | Group n r' => re_match r' s caps (fun t rest caps' => k t rest (<[n := t]> caps'))
  | Opt r' =>
      match re_match r' s caps k with
      | Some out => Some out
      | None => k "" s caps
      end
  | Seq r1 r2 =>
      re_match r1 s caps (fun t1 rest1 caps1 =>
        re_match r2 rest1 caps1 (fun t2 rest2 caps2 => k (t1 ++ t2) rest2 caps2))
  end.

(** [re.match(r, s)]: the groups of the first match at the start of [s],
    which need not reach its end. *)
Definition py_re_match (r : regex) (s : string) : option (gmap nat string) :=
  re_match r s ∅ (fun _ _ caps => Some caps).

(** [.] : every character but the line feed *)
Definition dot (c : ascii) : bool := negb (Ascii.eqb c "010"%char).

Definition in_range (lo hi c : ascii) : bool :=
  (N_of_ascii lo <=? N_of_ascii c)%N && (N_of_ascii c <=? N_of_ascii hi)%N.

(** [[a-zA-Z0-9-_]]: after the range [0-9] the hyphen stands for itself *)
Definition id_char (c : ascii) : bool :=
  in_range "a" "z" c || in_range "A" "Z" c || in_range "0" "9" c
  || Ascii.eqb c "-" || Ascii.eqb c "_".

(** [[0-9]] *)
Definition digit (c : ascii) : bool := in_range "0" "9" c.

(** [.*spreadsheets/d/([a-zA-Z0-9-_]+).*?(?:gid=([0-9]+))?.*] *)
Definition gsheet_pattern : regex :=
  Seq (Star true dot)
    (Seq (Lit "spreadsheets/d/")
       (Seq (Group 1 (Plus id_char))
          (Seq (Star false dot)
             (Seq (Opt (Seq (Lit "gid=") (Group 2 (Plus digit))))
                (Star true dot))))).

(** [m.group(n)] inside an f-string: [None] prints as such *)
Definition group_text (caps : gmap nat string) (n : nat) : string :=
  default "None" (caps !! n).

(** [gsheet_to_csv_export] of [streamlit_app.py] *)
Definition gsheet_to_csv_export (url : string) : option string :=
  match py_re_match gsheet_pattern url with
  | None => None
  | Some m =>
      let sheet_id := group_text m 1 in
      let gid := match m !! 2%nat with
                 | Some g => if String.eqb g "" then "0" else g
                 | None => "0"
                 end in
      Some ("https://docs.google.com/spreadsheets/d/" ++ sheet_id
            ++ "/export?format=csv&gid=" ++ gid)
  end.

(** The longest run of characters of a class at the start of a text, and
    what follows it. *)
Fixpoint take_while (cs : ascii -> bool) (s : string) : string :=
  match s with
  | String c s' => if cs c then String c (take_while cs s') else ""
  | EmptyString => ""
  end.

Fixpoint drop_while (cs : ascii -> bool) (s : string) : string :=
  match s with
  | String c s' => if cs c then drop_while cs s' else s
  | EmptyString => ""
  end.

(** A text whose every character is of a class. *)
Fixpoint all_chars (cs : ascii -> bool) (s : string) : bool :=
  match s with
  | EmptyString => true
  | String c s' => cs c && all_chars cs s'
  end.

(** A continuation that accepts whatever is left and returns the groups. *)
Definition accepts_all (k : string -> string -> gmap nat string -> option (gmap nat string))
    : Prop :=
  forall t rest caps, k t rest caps = Some caps.


(** ** Data frames and the normalisation of their columns

    A data frame is its number of rows and its columns in order, each a
    label and its cells; a label may occur more than once. *)

Record frame : Type := mkFrame { nrows : nat; columns : list (string * list pyval) }.

Definition labels (df : frame) : list string := map fst (columns df).

(** The cells of the first column labelled [l]. *)
Fixpoint assoc (l : string) (cols : list (string * list pyval)) : option (list pyval) :=
  match cols with
  | [] => None
  | (l', v) :: cols' => if String.eqb l' l then Some v else assoc l cols'
  end.

(** [src in df.columns] *)
Definition has_column (src : string) (df : frame) : bool :=
  existsb (String.eqb src) (labels df).

(** [df.rename(columns={src: std}, inplace=True)]: every column labelled
    [src] is labelled [std]. *)
Definition rename_column (src std : string) (df : frame) : frame :=
  mkFrame (nrows df)
    (map (fun col => (if String.eqb (fst col) src then std else fst col, snd col))
       (columns df)).

(** A column of [None]. *)
Definition none_column (n : nat) : list pyval := repeat PyNone n.

(** [df[std] = None]: the columns labelled [std] are set to [None]; when
    there is none, one is added at the end. *)
Definition set_none (std : string) (df : frame) : frame :=
  if has_column std df then
    mkFrame (nrows df)
      (map (fun col => if String.eqb (fst col) std
                       then (fst col, none_column (nrows df)) else col)
         (columns df))
  else mkFrame (nrows df) (columns df ++ [(std, none_column (nrows df))])%list.

(** The columns labelled [l], in their order. *)
Definition columns_labelled (l : string) (df : frame) : list (string * list pyval) :=
  List.filter (fun col => String.eqb (fst col) l) (columns df).

(** [df[ls]] for a list of labels: the columns of each label in turn;
    [None] is the [KeyError] for a label that no column has. *)
Fixpoint select (ls : list string) (df : frame) : option (list (string * list pyval)) :=
  match ls with
  | [] => Some []
  | l :: ls' =>
      let found := columns_labelled l df in
      match found, select ls' df with
      | _ :: _, Some rest => Some (found ++ rest)%list
      | _, _ => None
      end
  end.

Definition STD_COLS : list string :=
  ["entity"; "account_id"; "account_name"; "period_start_date"; "period_end_date";
   "gl_ending_balance"; "subledger_ending_balance";
   "preparer"; "prepared_on"; "approver"; "approved_on";
   "reconciling_items_count"; "items_over_aging_threshold"; "action_plan_present";
   "documentation_links"].

(** One turn of the loop of both normalisers. *)
Definition normalize_step (df : frame) (std src : string) : frame :=
  if has_column src df then rename_column src std df else set_none std df.

(** [normalize_columns] of [streamlit_gl_recon_simple.py]: the column map
    is a dictionary, and a standard name it lacks stands for itself. *)
Definition normalize_columns (df : frame) (colmap : gmap string string) : option frame :=
  let df' := fold_left (fun d std => normalize_step d std (default std (colmap !! std)))
               STD_COLS df in
  option_map (mkFrame (nrows df')) (select STD_COLS df').

(** [normalize] of [streamlit_app.py]: the column map is the dictionary of
    the text inputs, gone through in the order of its items. *)
Definition normalize (df : frame) (colmap : list (string * string)) : option frame :=
  let df' := fold_left (fun d item => normalize_step d (fst item) (snd item)) colmap df in
  option_map (mkFrame (nrows df')) (select STD_COLS df').

(** A small frame: three columns under their own headers, two rows. *)
Definition sample_frame : frame :=
  mkFrame 2
    [("Entity", [PyStr "US01"; PyStr "DE02"]);
     ("gl_ending_balance", [PyFloat 100; PyFloat 250]);
     ("comment", [PyStr "ok"; PyNone])].

(** The cells that the standard column [std] is to hold: those of its
    source column in the frame read, or [None] when that is not there. *)
Definition source_column (src : string -> string) (df : frame) (std : string) : list pyval :=
  match assoc (src std) (columns df) with
  | Some v => v
  | None => none_column (nrows df)
  end.

(** ** Collecting the input files

    What the file system answers: whether a path is a directory, and the
    paths [glob.glob(os.path.join(p, pattern))] finds in it. *)
Record filesystem : Type := mkFS {
  isdir : string -> bool;
  glob_in : string -> string -> list string
}.

(** [collect_inputs] of [streamlit_gl_recon_simple.py] *)
Fixpoint collect_inputs (fs : filesystem) (inputs : list string) : list string :=
  match inputs with
  | [] => []
  | p :: inputs' =>
      (if isdir fs p then (glob_in fs p "*.xlsx" ++ glob_in fs p "*.csv")%list else [p])
      ++ collect_inputs fs inputs'
  end%list.

(** A file system with one directory, [data], holding two files. *)
Definition sample_fs : filesystem :=
  mkFS (fun p => String.eqb p "data")
       (fun p pat => if String.eqb p "data"
                     then (if String.eqb pat "*.xlsx" then ["data/a.xlsx"]
                           else if String.eqb pat "*.csv" then ["data/b.csv"] else [])
                     else []).

(** The case analysis on the outcome of the four checks. *)
Ltac by_checks c :=
  unfold status, aggregate, step_aging, step_timely, step_sod, step_tieout, agg_init;
  destruct (tieout_pass c), (sod_pass c), (timely_pass c), (aging_pass c);
  cbn [negb failures severity severity_eqb app].

(** Membership in a list that is written out. *)
Ltac in_list := simpl; repeat (first [left; reflexivity | right]).

(** * Properties *)

(** ** The error monad and the loop *)

Lemma bind_Ok {A B : Type} (m : result A) (k : A -> result B) (b : B) :
  bind m k = Ok b <-> exists a, m = Ok a /\ k a = Ok b.
Proof.
  destruct m as [a | e]; simpl; split.
  - intros Hk. exists a. split; [reflexivity | exact Hk].
  - intros [a' [Ha Hk]]. inversion Ha. subst a'. exact Hk.
  - discriminate.
  - intros [a' [Ha _]]. discriminate.
Qed.


Lemma mapM_ext {A B : Type} (f g : A -> result B) (l : list A) :
  (forall a, f a = g a) -> mapM f l = mapM g l.
Proof.
  intros Hfg. induction l as [| a l IH]; simpl; [reflexivity |].
  rewrite Hfg, IH. reflexivity.
Qed.

Lemma evaluate_row_Ok `{PyRuntime} (crit r : gmap string pyval) (res : EvaluationResult) :
  evaluate_row crit r = Ok res <-> exists c, convert crit r = Ok c /\ res = result_of c.
Proof.
  unfold evaluate_row. rewrite bind_Ok. split.
  - intros [c [Hc Hres]]. exists c. inversion Hres. auto.
  - intros [c [Hc Hres]]. exists c. subst res. auto.
Qed.

(** ** The order of binary64 numbers *)

Lemma SFcompare_refl_not_Lt (x : spec_float) : SFcompare x x <> Some Lt.
Proof.
  destruct x as [s | s | | s m e]; simpl; try discriminate.
  - destruct s; discriminate.
  - destruct s; rewrite Z.compare_refl, Pos.compare_cont_refl; discriminate.
Qed.

Lemma SFcompare_Lt_asym (x y : spec_float) :
  SFcompare x y = Some Lt -> SFcompare y x <> Some Lt.
Proof.
  destruct x as [s1 | s1 | | s1 m1 e1], y as [s2 | s2 | | s2 m2 e2]; simpl;
    try discriminate;
    try (destruct s1; discriminate);
    try (destruct s2; discriminate);
    try (destruct s1, s2; discriminate).
  assert (Hm : Pos.compare_cont Eq m2 m1 = CompOpp (Pos.compare_cont Eq m1 m2))
    by (rewrite Pos.compare_cont_antisym; reflexivity).
  destruct s1, s2; try discriminate;
    rewrite (Z.compare_antisym e1 e2), Hm;
    destruct (e1 ?= e2); simpl; try discriminate;
    destruct (Pos.compare_cont Eq m1 m2); simpl; discriminate.
Qed.

Lemma ltb_irrefl (x : float) : (x <? x)%float = false.
Proof.
  rewrite ltb_spec. unfold SFltb.
  pose proof (SFcompare_refl_not_Lt (Prim2SF x)) as Hx.
  destruct (SFcompare (Prim2SF x) (Prim2SF x)) as [[ | | ] |]; congruence.
Qed.

Lemma ltb_asym (x y : float) : (x <? y)%float = true -> (y <? x)%float = false.
Proof.
  rewrite !ltb_spec. unfold SFltb. intros Hxy.
  pose proof (SFcompare_Lt_asym (Prim2SF x) (Prim2SF y)) as Hasym.
  destruct (SFcompare (Prim2SF x) (Prim2SF y)) as [[ | | ] |]; try discriminate.
  specialize (Hasym eq_refl).
  destruct (SFcompare (Prim2SF y) (Prim2SF x)) as [[ | | ] |]; congruence.
Qed.

(** [max] returns one of its arguments, and neither argument compares
    greater than it. *)
Lemma py_max_spec (a b : float) :
  (py_max a b = a \/ py_max a b = b)
  /\ (py_max a b <? a)%float = false
  /\ (py_max a b <? b)%float = false.
Proof.
  unfold py_max. destruct (a <? b)%float eqn:Hab.
  - split; [right; reflexivity |]. split; [apply ltb_asym; exact Hab | apply ltb_irrefl].
  - split; [left; reflexivity |]. split; [apply ltb_irrefl | exact Hab].
Qed.

(** ** Aggregation *)

Lemma aggregate_severity (c : locals) :
  severity (aggregate c) =
    if negb (tieout_pass c) || negb (sod_pass c) then High
    else if negb (timely_pass c) || negb (aging_pass c) then Medium
    else Low.
Proof. by_checks c; reflexivity. Qed.

Lemma aggregate_failures_nil (c : locals) :
  failures (aggregate c) = []
  <-> tieout_pass c = true /\ sod_pass c = true /\ timely_pass c = true /\ aging_pass c = true.
Proof.
  by_checks c; split; intros Hx;
    try discriminate; try reflexivity; try (repeat split; reflexivity);
    destruct Hx as (?&?&?&?); discriminate.
Qed.

Lemma agg_after_all (c : locals) : agg_after 4 c = aggregate c.
Proof. reflexivity. Qed.

Lemma severity_le_refl (s : severity_t) : severity_le s s.
Proof. unfold severity_le. lia. Qed.

(** Every check leaves the running severity where it is or raises it. *)
Lemma step_monotone (c : locals) (a : agg) (step : locals -> agg -> agg) :
  In step steps -> severity_le (severity a) (severity (step c a)).
Proof.
  unfold steps. simpl. intros [<- | [<- | [<- | [<- | []]]]];
    unfold step_tieout, step_sod, step_timely, step_aging, severity_le.
  - destruct (tieout_pass c); simpl; destruct (severity a); simpl; lia.
  - destruct (sod_pass c); simpl; destruct (severity a); simpl; lia.
  - destruct (timely_pass c); simpl; destruct (severity a); simpl; lia.
  - destruct (aging_pass c); simpl; destruct (severity a); simpl; lia.
Qed.

Lemma status_Pass_iff (c : locals) : status c = Pass <-> failures (aggregate c) = [].
Proof.
  unfold status. destruct (failures (aggregate c)) as [| m ms].
  - tauto.
  - destruct (severity_eqb (severity (aggregate c)) High); split; discriminate.
Qed.

Lemma severity_High_iff (c : locals) :
  severity (aggregate c) = High <-> tieout_pass c = false \/ sod_pass c = false.
Proof.
  rewrite aggregate_severity.
  destruct (tieout_pass c), (sod_pass c), (timely_pass c), (aging_pass c);
    cbn [negb orb]; split; intros Hx;
    try reflexivity; try discriminate;
    try (left; reflexivity); try (right; reflexivity);
    destruct Hx; discriminate.
Qed.

Lemma status_Fail_iff (c : locals) : status c = Fail <-> severity (aggregate c) = High.
Proof. by_checks c; split; intros Hx; try reflexivity; discriminate. Qed.

(** C1: the status is pass exactly when the four checks hold, that is when
    the failure list is empty; it is fail exactly when the final severity
    is high, which is exactly when the tie-out or the SoD check failed; it
    is warn in every other case, the failure list then being non-empty. *)
Theorem status_by_checks (c : locals) :
  (res_status (result_of c) = Pass
   <-> tieout_pass c = true /\ sod_pass c = true /\ timely_pass c = true
       /\ aging_pass c = true)
  /\ (res_status (result_of c) = Pass <-> failures (aggregate c) = [])
  /\ (res_status (result_of c) = Fail <-> res_severity (result_of c) = High)
  /\ (res_severity (result_of c) = High <-> tieout_pass c = false \/ sod_pass c = false)
  /\ (res_status (result_of c) = Warn
      <-> failures (aggregate c) <> [] /\ res_severity (result_of c) <> High).
Proof.
  cbn [result_of res_status res_severity].
  split; [rewrite status_Pass_iff; apply aggregate_failures_nil |].
  split; [apply status_Pass_iff |].
  split; [apply status_Fail_iff |].
  split; [apply severity_High_iff |].
  by_checks c; split; intros Hx;
    try discriminate;
    try (split; [discriminate | discriminate]);
    try reflexivity;
    destruct Hx as [Hf Hs]; congruence.
Qed.

(** C7: along the checks in their order (tie-out, SoD, timeliness, aging)
    the running severity starts at low and never decreases: the value after
    [n + 1] checks is at least the value after [n], the value after all four
    is the final one, and each check on its own never lowers whatever
    severity it is given. *)
Theorem severity_monotone (c : locals) :
  severity (agg_after 0 c) = Low
  /\ agg_after 4 c = aggregate c
  /\ (forall n : nat, severity_le (severity (agg_after n c)) (severity (agg_after (S n) c)))
  /\ (forall (step : locals -> agg -> agg) (a : agg),
        In step steps -> severity_le (severity a) (severity (step c a))).
Proof.
  split; [reflexivity |]. split; [reflexivity |]. split.
  - intros n. unfold agg_after.
    destruct n as [| [| [| [| n]]]]; cbn [firstn steps fold_left];
      try (apply step_monotone; unfold steps; simpl; tauto).
    destruct n; apply severity_le_refl.
  - intros step a Hin. apply step_monotone. exact Hin.
Qed.

(** ** The checks *)

(** The timeliness check by the local [delta_days]: when the branch is not
    taken the check passes and the reported overrun is 0; on a number of
    days the check passes exactly when it does not exceed the SLA and the
    overrun is the excess, at least 0; on NaN the check fails and the
    overrun is 0; a failed check ends at severity medium or high. *)
Lemma timeliness_by_delta (c : locals) :
  (delta_days c = None
   -> timely_pass c = true /\ res_sla_days_over (result_of c) = 0)
  /\ (forall d : Z,
        delta_days c = Some (Days d) ->
        (timely_pass c = true <-> d <= sla_days c)
        /\ res_sla_days_over (result_of c) = Z.max 0 (d - sla_days c))
  /\ (delta_days c = Some NanDays
      -> timely_pass c = false /\ res_sla_days_over (result_of c) = 0)
  /\ (timely_pass c = false -> severity_le Medium (res_severity (result_of c))).
Proof.
  cbn [result_of res_sla_days_over res_severity].
  split; [| split; [| split]].
  - unfold timely_pass, sla_over. intros Hd. rewrite Hd. split; reflexivity.
  - unfold timely_pass, sla_over. intros d Hd. rewrite Hd.
    split; [apply Z.leb_le | reflexivity].
  - unfold timely_pass, sla_over. intros Hd. rewrite Hd. split; reflexivity.
  - intros Hlate. rewrite aggregate_severity, Hlate. unfold severity_le.
    destruct (negb (tieout_pass c) || negb (sod_pass c)); simpl; lia.
Qed.

(** C5: when SoD is not required the check passes; when it is required the
    check passes exactly when the preparer and the approver are different
    texts, compared as they are (another case or a space more is another
    text); a failure sets the severity to high and the status to fail,
    whatever the other checks give, as for J.Lee preparing and approving. *)
Theorem sod_check (c : locals) :
  (sod_required c = false -> sod_pass c = true)
  /\ (sod_required c = true -> (sod_pass c = true <-> preparer c <> approver c))
  /\ (sod_pass c = false ->
      res_sod_violation (result_of c) = true
      /\ res_severity (result_of c) = High
      /\ res_status (result_of c) = Fail)
  /\ (sod_required c = true -> preparer c = "J.Lee" -> approver c = "J.Lee" ->
      sod_pass c = false /\ res_status (result_of c) = Fail)
  /\ (sod_required c = true -> preparer c = "J.Lee" ->
      approver c = "j.lee" \/ approver c = "J.Lee " -> sod_pass c = true).
Proof.
  assert (Hfail : sod_pass c = false ->
                  res_sod_violation (result_of c) = true
                  /\ res_severity (result_of c) = High
                  /\ res_status (result_of c) = Fail).
  { intros Hsod. cbn [result_of res_sod_violation res_severity res_status].
    split; [rewrite Hsod; reflexivity |].
    assert (Hhigh : severity (aggregate c) = High).
    { rewrite aggregate_severity, Hsod. destruct (tieout_pass c); reflexivity. }
    split; [exact Hhigh |].
    apply status_Fail_iff. exact Hhigh. }
  split; [| split; [| split; [exact Hfail | split]]].
  - unfold sod_pass. intros ->. reflexivity.
  - unfold sod_pass. intros ->.
    rewrite negb_true_iff. split.
    + intros Hne Heq. apply String.eqb_eq in Heq. congruence.
    + intros Hne. apply String.eqb_neq. exact Hne.
  - intros Hreq Hp Ha.
    assert (Hsod : sod_pass c = false).
    { unfold sod_pass. rewrite Hreq, Hp, Ha. reflexivity. }
    split; [exact Hsod | apply Hfail; exact Hsod].
  - intros Hreq Hp Ha. unfold sod_pass. rewrite Hreq, Hp.
    destruct Ha as [-> | ->]; reflexivity.
Qed.

(** C6: the aging check passes exactly when no item is over the threshold
    or plans are allowed and one is present; a failure turns a running
    severity of low into medium and leaves medium and high as they are, so
    the check never produces a high that was not there, and a pass changes
    nothing. *)
Theorem aging_check (c : locals) :
  (aging_pass c = true
   <-> items_over c = 0 \/ (allow_over_with_plan c = true /\ plan c = true))
  /\ (forall a : agg,
        aging_pass c = false ->
        severity (step_aging c a)
        = match severity a with Low => Medium | Medium => Medium | High => High end)
  /\ (forall a : agg, severity (step_aging c a) = High -> severity a = High)
  /\ (forall a : agg, aging_pass c = true -> step_aging c a = a)
  /\ res_aged_items_flag (result_of c) = negb (aging_pass c).
Proof.
  split; [| split; [| split; [| split]]].
  - unfold aging_pass. rewrite orb_true_iff, andb_true_iff, Z.eqb_eq. tauto.
  - intros a Hfail. unfold step_aging. rewrite Hfail.
    cbn [negb severity]. destruct (severity a); reflexivity.
  - intros a. unfold step_aging.
    destruct (aging_pass c); cbn [negb severity]; [tauto |].
    destruct (severity a); cbn [severity_eqb]; congruence.
  - intros a Hpass. unfold step_aging. rewrite Hpass. reflexivity.
  - reflexivity.
Qed.

(** C2: the reported variance is the GL balance minus the subledger
    balance; the tolerance is the larger of the absolute tolerance and the
    share of the magnitude of the GL balance (one of the two, and neither
    compares greater than it), never their sum; the tie-out passes exactly
    when the magnitude of the variance is at most the tolerance, and a
    failure gives severity high and status fail. With balances 100000 and
    100500, absolute tolerance 100 and share 0.002 the tolerance is 200 and
    the tie-out fails. *)
Theorem tieout_check (c : locals) :
  res_variance_amount (result_of c) = (gl_bal c - sub_bal c)%float
  /\ (tol c = tol_abs c \/ tol c = (PrimFloat.abs (gl_bal c) * tol_pct c)%float)
  /\ (tol c <? tol_abs c)%float = false
  /\ (tol c <? PrimFloat.abs (gl_bal c) * tol_pct c)%float = false
  /\ (tieout_pass c = true
      <-> (PrimFloat.abs (gl_bal c - sub_bal c) <=? tol c)%float = true)
  /\ (tieout_pass c = false ->
      res_severity (result_of c) = High /\ res_status (result_of c) = Fail)
  /\ (gl_bal c = 100000%float -> sub_bal c = 100500%float ->
      tol_abs c = 100%float -> tol_pct c = two_thousandths ->
      tol c = 200%float
      /\ tieout_pass c = false
      /\ res_severity (result_of c) = High
      /\ res_status (result_of c) = Fail).
Proof.
  assert (Hfail : tieout_pass c = false ->
                  res_severity (result_of c) = High /\ res_status (result_of c) = Fail).
  { intros Htie. cbn [result_of res_severity res_status].
    assert (Hhigh : severity (aggregate c) = High).
    { apply severity_High_iff. left. exact Htie. }
    split; [exact Hhigh | apply status_Fail_iff; exact Hhigh]. }
  pose proof (py_max_spec (tol_abs c) (PrimFloat.abs (gl_bal c) * tol_pct c)%float)
    as (Hone & Habs & Hpct).
  split; [reflexivity |].
  split; [exact Hone |]. split; [exact Habs |]. split; [exact Hpct |].
  split; [unfold tieout_pass, variance; tauto |].
  split; [exact Hfail |].
  intros Hgl Hsub Hta Htp.
  assert (Htol : tol c = 200%float).
  { unfold tol. rewrite Hgl, Hta, Htp. reflexivity. }
  assert (Htie : tieout_pass c = false).
  { unfold tieout_pass, variance. rewrite Htol, Hgl, Hsub. reflexivity. }
  split; [exact Htol |]. split; [exact Htie |]. apply Hfail. exact Htie.
Qed.

(** ** Coercion to a truth value *)

Lemma str_in_In (x : string) (l : list string) : str_in x l = true <-> In x l.
Proof.
  unfold str_in. rewrite existsb_exists. split.
  - intros [y [Hy Heq]]. apply String.eqb_eq in Heq. subst y. exact Hy.
  - intros Hx. exists x. split; [exact Hx | apply String.eqb_refl].
Qed.

(** C8, as the code has it: a text is true exactly when, once the white
    space around it is removed and it is put in lower case, it is one of y,
    yes, true, 1 (for a text without white space around it, exactly when
    its lower case is one of them); a number is true exactly when it is not
    zero; [None] and every other value are false. *)
Theorem to_bool_spec :
  (forall s : string,
     to_bool (PyStr s) = true <-> In (lower (strip s)) ["y"; "yes"; "true"; "1"])
  /\ (forall s : string,
        strip s = s ->
        (to_bool (PyStr s) = true <-> In (lower s) ["y"; "yes"; "true"; "1"]))
  /\ (forall z : Z, to_bool (PyInt z) = true <-> z <> 0)
  /\ (forall f : float, to_bool (PyFloat f) = true <-> (f =? 0)%float = false)
  /\ (forall b : bool, to_bool (PyBool b) = b)
  /\ to_bool PyNone = false
  /\ (forall d : date, to_bool (PyTimestamp d) = false)
  /\ Forall (fun x => to_bool x = true)
       [PyStr "Yes"; PyStr "y"; PyStr "TRUE"; PyStr "1"; PyInt 7; PyFloat 0.5]
  /\ Forall (fun x => to_bool x = false)
       [PyStr "no"; PyStr "0"; PyStr ""; PyNone; PyInt 0; PyFloat 0; PyFloat (-0)].
Proof.
  split; [| split; [| split; [| split; [| split; [| split; [| split; [| split]]]]]]].
  - intros s. cbn [to_bool]. apply str_in_In.
  - intros s Hs. cbn [to_bool]. rewrite Hs. apply str_in_In.
  - intros z. cbn [to_bool]. rewrite negb_true_iff. apply Z.eqb_neq.
  - intros f. cbn [to_bool]. unfold float_truthy. apply negb_true_iff.
  - reflexivity.
  - reflexivity.
  - reflexivity.
  - repeat constructor.
  - repeat constructor.
Qed.

(** C8 as stated fails: the text " yes " is none of the four words in any
    case, and it is coerced to true. *)
Lemma to_bool_strips_first :
  to_bool (PyStr " yes ") = true
  /\ ~ In (lower " yes ") ["y"; "yes"; "true"; "1"].
Proof.
  split; [reflexivity |].
  simpl. intros [Hx | [Hx | [Hx | [Hx | []]]]]; discriminate.
Qed.

(** ** Conversions *)

(** What a successful conversion of a row says about each local. *)
Lemma convert_Ok `{PyRuntime} (crit r : gmap string pyval) (c : locals) :
  convert crit r = Ok c ->
  period_end c = parse_date_safe (row_get r "period_end_date")
  /\ py_float (py_or (row_get r "gl_ending_balance") (PyFloat 0)) = Ok (gl_bal c)
  /\ py_float (py_or (row_get r "subledger_ending_balance") (PyFloat 0)) = Ok (sub_bal c)
  /\ preparer c = py_str (py_or (row_get r "preparer") (PyStr ""))
  /\ approver c = py_str (py_or (row_get r "approver") (PyStr ""))
  /\ approved_on c = parse_date_safe (row_get r "approved_on")
  /\ py_int (py_or (row_get r "items_over_aging_threshold") (PyInt 0)) = Ok (items_over c)
  /\ plan c = to_bool (row_get r "action_plan_present")
  /\ py_float (dict_get crit "tieout_tolerance_abs" (PyFloat 0)) = Ok (tol_abs c)
  /\ py_float (dict_get crit "tieout_tolerance_pct" (PyFloat 0)) = Ok (tol_pct c)
  /\ sod_required c = py_truthy (dict_get crit "require_sod" (PyBool true))
  /\ py_int (dict_get crit "timeliness_sla_days" (PyInt 5)) = Ok (sla_days c)
  /\ allow_over_with_plan c
     = py_truthy (dict_get crit "allow_items_over_threshold_with_plan" (PyBool true)).
Proof.
  unfold convert. intros Hc.
  apply bind_Ok in Hc. destruct Hc as [gl [Hgl Hc]].
  apply bind_Ok in Hc. destruct Hc as [sub [Hsub Hc]].
  apply bind_Ok in Hc. destruct Hc as [items [Hitems Hc]].
  apply bind_Ok in Hc. destruct Hc as [ta [Hta Hc]].
  apply bind_Ok in Hc. destruct Hc as [tp [Htp Hc]].
  apply bind_Ok in Hc. destruct Hc as [sla [Hsla Hc]].
  apply bind_Ok in Hc. destruct Hc as [delta [_ Hc]].
  inversion Hc. subst c. cbn. repeat split; assumption.
Qed.

(** What a successful conversion says about [delta_days]: with both dates
    converted to something, the difference was taken without raising; with
    either [None], the branch was not taken. *)
Lemma convert_delta `{PyRuntime} (crit r : gmap string pyval) (c : locals) :
  convert crit r = Ok c ->
  match parse_date_safe (row_get r "approved_on"),
        parse_date_safe (row_get r "period_end_date") with
  | Some a, Some p => exists d, days_of_difference a p = Ok d /\ delta_days c = Some d
  | _, _ => delta_days c = None
  end.
Proof.
  unfold convert. intros Hc.
  apply bind_Ok in Hc. destruct Hc as [gl [_ Hc]].
  apply bind_Ok in Hc. destruct Hc as [sub [_ Hc]].
  apply bind_Ok in Hc. destruct Hc as [items [_ Hc]].
  apply bind_Ok in Hc. destruct Hc as [ta [_ Hc]].
  apply bind_Ok in Hc. destruct Hc as [tp [_ Hc]].
  apply bind_Ok in Hc. destruct Hc as [sla [_ Hc]].
  apply bind_Ok in Hc. destruct Hc as [delta [Hdelta Hc]].
  inversion Hc. subst c. cbn [delta_days].
  destruct (parse_date_safe (row_get r "approved_on")) as [a |];
    [destruct (parse_date_safe (row_get r "period_end_date")) as [p |] |].
  - apply bind_Ok in Hdelta. destruct Hdelta as [d [Hd Hdelta]].
    inversion Hdelta. exists d. split; [exact Hd | reflexivity].
  - inversion Hdelta. reflexivity.
  - inversion Hdelta. reflexivity.
Qed.

(** The branch of the timeliness check is not taken when a date cell
    converts to [None]. *)
Lemma convert_delta_None `{PyRuntime} (crit r : gmap string pyval) (c : locals) :
  convert crit r = Ok c ->
  parse_date_safe (row_get r "approved_on") = None
  \/ parse_date_safe (row_get r "period_end_date") = None ->
  delta_days c = None.
Proof.
  intros Hc Hnone. apply convert_delta in Hc.
  destruct Hnone as [Hn | Hn]; rewrite Hn in Hc.
  - exact Hc.
  - destruct (parse_date_safe (row_get r "approved_on")); exact Hc.
Qed.

(** The timeliness check by the date cells of a row. A cell that converts
    to [None] lets the check pass with overrun 0. Two dates are compared by
    the days from period end to approval, negative when the approval comes
    first: the check passes exactly when they do not exceed the SLA, and
    the overrun is the excess, at least 0. Two NaT fail the check with
    overrun 0, so the status is not pass. NaT for the approval and a date
    for the period end give no result, the subtraction raising. *)
Lemma timeliness_by_cells `{PyRuntime} (crit r : gmap string pyval) :
  let approved := parse_date_safe (row_get r "approved_on") in
  let ended := parse_date_safe (row_get r "period_end_date") in
  (forall c : locals,
     convert crit r = Ok c ->
     (approved = None \/ ended = None
      -> timely_pass c = true /\ res_sla_days_over (result_of c) = 0)
     /\ (forall a p : date,
           approved = Some (Date a) -> ended = Some (Date p) ->
           let delta := toordinal a - toordinal p in
           (timely_pass c = true <-> delta <= sla_days c)
           /\ res_sla_days_over (result_of c) = Z.max 0 (delta - sla_days c))
     /\ (approved = Some NaT -> ended = Some NaT ->
         timely_pass c = false
         /\ res_sla_days_over (result_of c) = 0
         /\ res_status (result_of c) <> Pass))
  /\ (forall p : date,
        approved = Some NaT -> ended = Some (Date p) ->
        exists e : exn, evaluate_row crit r = Raise e).
Proof.
  intros approved ended. split.
  - intros c Hc.
    pose proof (convert_delta crit r c Hc) as Hd.
    fold approved ended in Hd.
    destruct (timeliness_by_delta c) as (Hnone & Hdays & Hnan & _).
    split; [| split].
    + intros Hn. apply Hnone.
      destruct Hn as [Hn | Hn]; rewrite Hn in Hd.
      * exact Hd.
      * destruct approved; exact Hd.
    + intros a p Ha Hp. rewrite Ha, Hp in Hd.
      destruct Hd as [d [Hdiff Hd]]. cbn in Hdiff. inversion Hdiff. subst d.
      apply Hdays. exact Hd.
    + intros Ha Hp. rewrite Ha, Hp in Hd.
      destruct Hd as [d [Hdiff Hd]]. cbn in Hdiff. inversion Hdiff. subst d.
      destruct (Hnan Hd) as [Hlate Hover].
      split; [exact Hlate |]. split; [exact Hover |].
      cbn [result_of res_status]. intros Hpass.
      apply status_Pass_iff, aggregate_failures_nil in Hpass.
      destruct Hpass as (_ & _ & Hx & _). congruence.
  - intros p Ha Hp. unfold evaluate_row.
    destruct (convert crit r) as [c | e] eqn:Hc.
    + apply convert_delta in Hc. fold approved ended in Hc.
      rewrite Ha, Hp in Hc. destruct Hc as [d [Hdiff _]]. discriminate.
    + exists e. reflexivity.
Qed.

(** C4 fails on rows whose date cells hold a text that converts to NaT
    instead of raising. With both dates the empty text, every other cell
    being in order, the timeliness check fails: the status is warn, the
    severity medium, and the rationale reports an SLA exceeded by 0 days.
    With the text [NaT] for the approval and a date for the period end, the
    subtraction raises [TypeError], which leaves [evaluate] of both files
    whatever the clock, the version label and the records that follow. *)
Theorem timeliness_fails_on_unparsed_dates :
  parse_date_safe (H := sample_runtime) (PyStr "") = Some NaT
  /\ parse_date_safe (H := sample_runtime) (PyStr "NaT") = Some NaT
  /\ (exists c : locals,
        convert (H := sample_runtime) default_crit blank_dates_row = Ok c
        /\ timely_pass c = false
        /\ res_sla_days_over (result_of c) = 0
        /\ res_status (result_of c) = Warn
        /\ res_severity (result_of c) = Medium
        /\ res_rationale (result_of c) = "Approval exceeded SLA by 0 day(s)")
  /\ (forall (now : datetime) (v : string) (df : list (gmap string pyval)),
        App.evaluate (H := sample_runtime) now (nat_approval_row :: df) default_crit v
        = Raise TypeError
        /\ Simple.evaluate (H := sample_runtime) now (nat_approval_row :: df) default_crit v
           = Raise TypeError).
Proof.
  split; [reflexivity |]. split; [reflexivity |]. split.
  - eexists. split; [vm_compute; reflexivity |].
    repeat split; vm_compute; reflexivity.
  - intros now v df.
    assert (Hrow : evaluate_row (H := sample_runtime) default_crit nat_approval_row
                   = Raise TypeError).
    { vm_compute. reflexivity. }
    unfold App.evaluate, Simple.evaluate. cbn [mapM]. rewrite Hrow.
    split; reflexivity.
Qed.

(** A missing date is [None], and so is one the conversion rejects. *)
Lemma parse_date_safe_missing `{PyRuntime} (x : pyval) :
  isna x = true \/ to_datetime_date x = None -> parse_date_safe x = None.
Proof.
  unfold parse_date_safe. intros [Hna | Hconv].
  - rewrite Hna. reflexivity.
  - rewrite Hconv. destruct (isna x || is_none x); reflexivity.
Qed.

(** An absent number is [0.0] or [0]. *)
Lemma absent_number_defaults `{PyRuntime} :
  py_float (py_or PyNone (PyFloat 0)) = Ok 0%float
  /\ py_int (py_or PyNone (PyInt 0)) = Ok 0.
Proof. split; reflexivity. Qed.

(** A text that [float] rejects in a balance cell is not replaced by a
    default: the exception leaves the evaluator. *)
Lemma evaluate_raises_on_text_balance `{PyRuntime} (crit r : gmap string pyval) (s : string) :
  row_get r "gl_ending_balance" = PyStr s -> s <> "" -> float_of_str s = None ->
  evaluate_row crit r = Raise ValueError.
Proof.
  intros Hcell Hne Hrej. unfold evaluate_row, convert. rewrite Hcell.
  unfold py_or. cbn [py_truthy].
  apply String.eqb_neq in Hne. rewrite Hne. cbn [negb py_float].
  rewrite Hrej. reflexivity.
Qed.

(** C3 fails on a row whose count of aged items is blank (NaN): the
    conversion to an integer raises [ValueError], which leaves [evaluate] of
    both files, whatever the runtime, the clock, the version label and the
    records that follow. *)
Theorem evaluate_raises_on_blank_count `{PyRuntime} (now : datetime) (v : string)
    (df : list (gmap string pyval)) :
  evaluate_row default_crit blank_count_row = Raise ValueError
  /\ App.evaluate now (blank_count_row :: df) default_crit v = Raise ValueError
  /\ Simple.evaluate now (blank_count_row :: df) default_crit v = Raise ValueError.
Proof.
  assert (Hrow : evaluate_row default_crit blank_count_row = Raise ValueError).
  { vm_compute. reflexivity. }
  unfold App.evaluate, Simple.evaluate. cbn [mapM]. rewrite Hrow.
  split; [reflexivity |]. split; reflexivity.
Qed.

(** C10: when SoD is required and the row has neither a preparer nor an
    approver, both become the empty text, the SoD check fails, the result
    flags the violation with severity high and status fail; a missing
    approval date or period end lets the timeliness check pass. *)
Theorem absent_reviewers_fail_sod `{PyRuntime} (crit r : gmap string pyval) (c : locals) :
  row_get r "preparer" = PyNone ->
  row_get r "approver" = PyNone ->
  py_truthy (dict_get crit "require_sod" (PyBool true)) = true ->
  convert crit r = Ok c ->
  preparer c = "" /\ approver c = ""
  /\ sod_pass c = false
  /\ res_sod_violation (result_of c) = true
  /\ res_severity (result_of c) = High
  /\ res_status (result_of c) = Fail
  /\ (row_get r "approved_on" = PyNone \/ row_get r "period_end_date" = PyNone ->
      timely_pass c = true).
Proof.
  intros Hp Ha Hreq Hc.
  pose proof (convert_delta_None crit r c Hc) as Hdelta.
  apply convert_Ok in Hc.
  destruct Hc as (_ & _ & _ & Hprep & Happ & _ & _ & _ & _ & _ & Hsod & _ & _).
  rewrite Hp in Hprep. rewrite Ha in Happ. rewrite Hreq in Hsod.
  cbn in Hprep, Happ.
  assert (Hfail : sod_pass c = false).
  { unfold sod_pass. rewrite Hsod, Hprep, Happ. reflexivity. }
  assert (Hhigh : severity (aggregate c) = High).
  { apply severity_High_iff. right. exact Hfail. }
  split; [exact Hprep |]. split; [exact Happ |]. split; [exact Hfail |].
  cbn [result_of res_sod_violation res_severity res_status].
  split; [rewrite Hfail; reflexivity |].
  split; [exact Hhigh |].
  split; [apply status_Fail_iff; exact Hhigh |].
  intros Hnone. unfold timely_pass. rewrite Hdelta; [reflexivity |].
  destruct Hnone as [Hnone | Hnone]; rewrite Hnone; [left | right]; reflexivity.
Qed.

Lemma absent_reviewers_fail_sod_witness :
  exists c : locals,
    convert (H := sample_runtime) default_crit no_reviewers_row = Ok c
    /\ preparer c = "" /\ approver c = ""
    /\ sod_pass c = false
    /\ res_sod_violation (result_of c) = true
    /\ res_severity (result_of c) = High
    /\ res_status (result_of c) = Fail.
Proof.
  eexists. split; [vm_compute; reflexivity |].
  pose proof (absent_reviewers_fail_sod (H := sample_runtime)
                default_crit no_reviewers_row _
                eq_refl eq_refl eq_refl eq_refl) as Hw.
  tauto.
Defined.

(** The text [n/a] in the balance cell, under the sample runtime. *)
Example text_balance_raises :
  evaluate_row (H := sample_runtime) default_crit text_balance_row = Raise ValueError.
Proof.
  apply (evaluate_raises_on_text_balance (H := sample_runtime)) with (s := "n/a").
  - reflexivity.
  - discriminate.
  - reflexivity.
Qed.

(** ** The loop over the records *)

(** A loop whose body post-processes what another body returns. *)
Lemma mapM_then {A B C : Type} (f : A -> result B) (g : B -> C) (l : list A) :
  mapM (fun a => let* b := f a in Ok (g b)) l
  = match mapM f l with
    | Ok bs => Ok (map g bs)
    | Raise e => Raise e
    end.
Proof.
  induction l as [| a l IH]; simpl; [reflexivity |].
  destruct (f a) as [b | e]; simpl; [| reflexivity].
  rewrite IH. destruct (mapM f l) as [bs | e]; reflexivity.
Qed.

Lemma Forall2_map_r {A B C : Type} (P : A -> C -> Prop) (g : B -> C)
    (l : list A) (bs : list B) :
  Forall2 P l (map g bs) <-> Forall2 (fun a b => P a (g b)) l bs.
Proof.
  revert l. induction bs as [| b bs IH]; intros l; simpl; split; intros Hall.
  - inversion Hall. constructor.
  - inversion Hall. constructor.
  - inversion Hall as [| a c l' cs Hac Hrest]. subst.
    constructor; [exact Hac | apply IH; exact Hrest].
  - inversion Hall as [| a c l' cs Hac Hrest]. subst.
    constructor; [exact Hac | apply IH; exact Hrest].
Qed.




(** ** The scenarios, from the row to the verdict

    Each runs [evaluate_row] under the sample runtime and reads the status,
    the severity, the rationale and the overrun of the result. *)

Example scenario_A_passes :
  match evaluate_row (H := sample_runtime) default_crit clean_row with
  | Ok res => Some (res_status res, res_severity res, res_rationale res)
  | Raise _ => None
  end = Some (Pass, Low, "All checks passed within thresholds.").
Proof. vm_compute. reflexivity. Qed.

Example scenario_B_fails :
  match evaluate_row (H := sample_runtime)
          (<["tieout_tolerance_abs" := PyFloat 100]> default_crit) clean_row with
  | Ok res => Some (res_status res, res_severity res, res_rationale res)
  | Raise _ => None
  end = Some (Fail, High, "Tie-out variance -500.00 exceeds tolerance 200.00").
Proof. vm_compute. reflexivity. Qed.

Example scenario_D_warns :
  match evaluate_row (H := sample_runtime) default_crit
          (<["approved_on" := PyTimestamp (mkDate 2024 2 10)]> clean_row) with
  | Ok res => Some (res_status res, res_severity res, res_rationale res,
                    res_sla_days_over res)
  | Raise _ => None
  end = Some (Warn, Medium, "Approval exceeded SLA by 5 day(s)", 5).
Proof. vm_compute. reflexivity. Qed.

Example scenario_E_warns :
  match evaluate_row (H := sample_runtime) default_crit
          (<["items_over_aging_threshold" := PyInt 3]>
             (<["action_plan_present" := PyStr "no"]> clean_row)) with
  | Ok res => Some (res_status res, res_severity res, res_rationale res,
                    res_aged_items_flag res)
  | Raise _ => None
  end = Some (Warn, Medium, "Aged items without action plan", true).
Proof. vm_compute. reflexivity. Qed.

Example all_failures_are_collected :
  match evaluate_row (H := sample_runtime)
          (<["tieout_tolerance_abs" := PyFloat 100]> default_crit)
          (<["approver" := PyStr "J.Lee"]>
             (<["approved_on" := PyTimestamp (mkDate 2024 2 10)]>
                (<["items_over_aging_threshold" := PyInt 3]>
                   (<["action_plan_present" := PyInt 0]> clean_row)))) with
  | Ok res => Some (res_status res, res_severity res, res_rationale res)
  | Raise _ => None
  end = Some (Fail, High,
              "Tie-out variance -500.00 exceeds tolerance 200.00 | Segregation of duties failed (preparer equals approver) | Approval exceeded SLA by 5 day(s) | Aged items without action plan").
Proof. vm_compute. reflexivity. Qed.


(** * Further properties *)

(** ** Status, severity, flags and rationale *)

(** X1: the status and the severity of a result determine each other: pass
    goes with low, warn with medium, fail with high. *)
Theorem status_matches_severity (c : locals) :
  (res_status (result_of c) = Pass <-> res_severity (result_of c) = Low)
  /\ (res_status (result_of c) = Warn <-> res_severity (result_of c) = Medium)
  /\ (res_status (result_of c) = Fail <-> res_severity (result_of c) = High).
Proof.
  cbn [result_of res_status res_severity].
  split; [| split]; by_checks c; split; intros Hx; try reflexivity; discriminate.
Qed.

Lemma late_has_overrun (c : locals) :
  timely_pass c = false -> exists n, sla_over c = Some n.
Proof.
  unfold timely_pass, sla_over.
  destruct (delta_days c) as [[d |] |]; try discriminate;
    intros _; eexists; reflexivity.
Qed.

Lemma overrun_bounds (c : locals) :
  0 <= res_sla_days_over (result_of c)
  /\ (0 < res_sla_days_over (result_of c) -> timely_pass c = false)
  /\ (timely_pass c = false ->
      0 < res_sla_days_over (result_of c) \/ delta_days c = Some NanDays).
Proof.
  cbn [result_of res_sla_days_over]. unfold sla_over, timely_pass.
  destruct (delta_days c) as [[d |] |].
  - split; [lia |]. rewrite Z.leb_gt. split; [lia |]. intros Hlate. left. lia.
  - split; [lia |]. split; [lia |]. intros _. right. reflexivity.
  - split; [lia |]. split; [lia | discriminate].
Qed.

(** X2: no check stops another: the failure list holds one message for each
    failed check and nothing else, in the order tie-out, SoD, timeliness,
    aging, and the day count in the timeliness message is the reported
    overrun. *)
Theorem failures_listed_in_order (c : locals) :
  failures (aggregate c)
  = concat
      [ if tieout_pass c then []
        else ["Tie-out variance " ++ format_money (res_variance_amount (result_of c))
              ++ " exceeds tolerance " ++ format_money (tol c)];
        if sod_pass c then []
        else ["Segregation of duties failed (preparer equals approver)"];
        if timely_pass c then []
        else ["Approval exceeded SLA by "
              ++ str_of_int (res_sla_days_over (result_of c)) ++ " day(s)"];
        if aging_pass c then [] else ["Aged items without action plan"] ]
  /\ length (failures (aggregate c))
     = ((if tieout_pass c then 0 else 1) + (if sod_pass c then 0 else 1)
        + (if timely_pass c then 0 else 1) + (if aging_pass c then 0 else 1))%nat.
Proof.
  cbn [result_of res_variance_amount res_sla_days_over].
  unfold aggregate, step_aging, step_timely, step_sod, step_tieout, agg_init.
  destruct (timely_pass c) eqn:Ht.
  - destruct (tieout_pass c), (sod_pass c), (aging_pass c);
      cbn [negb failures app length Nat.add concat]; split; reflexivity.
  - destruct (late_has_overrun c Ht) as [n Hn]. rewrite Hn.
    destruct (tieout_pass c), (sod_pass c), (aging_pass c);
      cbn [negb failures app length Nat.add concat]; split; reflexivity.
Qed.

(** X3: the reported overrun is never negative; a positive overrun comes
    only with a failed timeliness check; a failed check comes with a
    positive overrun, except when the difference of the dates is NaN (both
    dates NaT), where the check fails and the overrun is 0. *)
Theorem overrun_when_late (c : locals) :
  0 <= res_sla_days_over (result_of c)
  /\ (0 < res_sla_days_over (result_of c) -> timely_pass c = false)
  /\ (timely_pass c = false ->
      0 < res_sla_days_over (result_of c) \/ delta_days c = Some NanDays)
  /\ (delta_days c = Some NanDays ->
      timely_pass c = false /\ res_sla_days_over (result_of c) = 0).
Proof.
  destruct (overrun_bounds c) as (Hnn & Hpos & Hlate).
  split; [exact Hnn |]. split; [exact Hpos |]. split; [exact Hlate |].
  exact (proj1 (proj2 (proj2 (timeliness_by_delta c)))).
Qed.

(** X4: the flags agree with the status: a SoD violation always comes with
    status fail, an aged-items flag never with status pass, and a passing
    result has no flag, no overrun and the fixed rationale. *)
Theorem flags_agree_with_status (c : locals) :
  (res_sod_violation (result_of c) = true -> res_status (result_of c) = Fail)
  /\ (res_aged_items_flag (result_of c) = true -> res_status (result_of c) <> Pass)
  /\ (res_status (result_of c) = Pass ->
      res_sod_violation (result_of c) = false
      /\ res_aged_items_flag (result_of c) = false
      /\ res_sla_days_over (result_of c) = 0
      /\ res_rationale (result_of c) = "All checks passed within thresholds.").
Proof.
  cbn [result_of res_sod_violation res_aged_items_flag res_status res_sla_days_over
         res_rationale].
  split; [| split].
  - intros Hv. apply negb_true_iff in Hv.
    apply status_Fail_iff, severity_High_iff. right. exact Hv.
  - intros Hflag Hpass. apply negb_true_iff in Hflag.
    apply status_Pass_iff, aggregate_failures_nil in Hpass.
    destruct Hpass as (_ & _ & _ & Hage). congruence.
  - intros Hpass. apply status_Pass_iff in Hpass.
    pose proof (proj1 (aggregate_failures_nil c) Hpass) as (_ & Hsod & Htime & Hage).
    rewrite Hsod, Hage. split; [reflexivity |]. split; [reflexivity |]. split.
    + pose proof (overrun_bounds c) as (Hnn & Hpos & _).
      cbn [result_of res_sla_days_over] in Hnn, Hpos.
      destruct (Z.eq_dec (match sla_over c with Some n => n | None => 0 end) 0)
        as [Hz | Hnz]; [exact Hz |].
      assert (Hlate : timely_pass c = false) by (apply Hpos; lia).
      congruence.
    + unfold rationale. rewrite Hpass. reflexivity.
Qed.

(** ** Blank and equal cells *)

Lemma is_nan_Prim2SF (f : float) : PrimFloat.is_nan f = true -> Prim2SF f = S754_nan.
Proof. intros Hnan. unfold Prim2SF. rewrite Hnan. reflexivity. Qed.

Lemma nan_is_truthy (f : float) : PrimFloat.is_nan f = true -> float_truthy f = true.
Proof.
  intros Hnan. unfold float_truthy. rewrite FloatAxioms.eqb_spec, (is_nan_Prim2SF f Hnan).
  reflexivity.
Qed.

Lemma nan_difference (x y : float) :
  PrimFloat.is_nan x = true \/ PrimFloat.is_nan y = true ->
  Prim2SF (x - y)%float = S754_nan.
Proof.
  intros Hnan. rewrite sub_spec. unfold SF64sub, SFsub.
  destruct Hnan as [Hx | Hy].
  - rewrite (is_nan_Prim2SF x Hx). reflexivity.
  - rewrite (is_nan_Prim2SF y Hy). destruct (Prim2SF x); reflexivity.
Qed.

Lemma nan_balance_fails (c : locals) :
  PrimFloat.is_nan (gl_bal c) = true \/ PrimFloat.is_nan (sub_bal c) = true ->
  tieout_pass c = false.
Proof.
  intros Hnan. unfold tieout_pass, variance.
  rewrite leb_spec, abs_spec, (nan_difference _ _ Hnan). reflexivity.
Qed.

(** X5: a blank balance cell (NaN) is not replaced by 0.0: it reaches the
    tie-out as it is, the tie-out fails whatever the tolerances, and the
    record gets severity high and status fail. *)
Theorem blank_balance_fails_tieout `{PyRuntime} (crit r : gmap string pyval)
    (c : locals) (f : float) :
  row_get r "gl_ending_balance" = PyFloat f \/ row_get r "subledger_ending_balance" = PyFloat f ->
  PrimFloat.is_nan f = true ->
  convert crit r = Ok c ->
  (gl_bal c = f \/ sub_bal c = f)
  /\ tieout_pass c = false
  /\ res_severity (result_of c) = High
  /\ res_status (result_of c) = Fail.
Proof.
  intros Hcell Hnan Hc. apply convert_Ok in Hc.
  destruct Hc as (_ & Hgl & Hsub & _).
  assert (Hor : py_or (PyFloat f) (PyFloat 0) = PyFloat f).
  { unfold py_or. cbn [py_truthy]. rewrite (nan_is_truthy f Hnan). reflexivity. }
  assert (Hbal : gl_bal c = f \/ sub_bal c = f).
  { destruct Hcell as [Hcell | Hcell].
    - left. rewrite Hcell, Hor in Hgl. cbn in Hgl. congruence.
    - right. rewrite Hcell, Hor in Hsub. cbn in Hsub. congruence. }
  assert (Htie : tieout_pass c = false).
  { apply nan_balance_fails. destruct Hbal as [-> | ->]; [left | right]; exact Hnan. }
  assert (Hhigh : severity (aggregate c) = High).
  { apply severity_High_iff. left. exact Htie. }
  split; [exact Hbal |]. split; [exact Htie |].
  cbn [result_of res_severity res_status].
  split; [exact Hhigh | apply status_Fail_iff; exact Hhigh].
Qed.

Lemma blank_balance_fails_tieout_witness :
  exists c : locals,
    convert (H := sample_runtime) default_crit
      (<["gl_ending_balance" := PyFloat nan]> clean_row) = Ok c
    /\ tieout_pass c = false
    /\ res_status (result_of c) = Fail.
Proof.
  eexists. split; [vm_compute; reflexivity |].
  pose proof (blank_balance_fails_tieout (H := sample_runtime) default_crit
                (<["gl_ending_balance" := PyFloat nan]> clean_row) _ nan
                (or_introl eq_refl) eq_refl eq_refl) as Hw.
  tauto.
Defined.

(** X6: when the preparer cell and the approver cell hold the same value,
    whatever it is (the same name, the same number, both blank), the SoD
    check fails when required and the status is fail. *)
Theorem equal_reviewer_cells_fail_sod `{PyRuntime} (crit r : gmap string pyval)
    (c : locals) :
  row_get r "preparer" = row_get r "approver" ->
  py_truthy (dict_get crit "require_sod" (PyBool true)) = true ->
  convert crit r = Ok c ->
  preparer c = approver c
  /\ res_sod_violation (result_of c) = true
  /\ res_status (result_of c) = Fail.
Proof.
  intros Hsame Hreq Hc. apply convert_Ok in Hc.
  destruct Hc as (_ & _ & _ & Hprep & Happ & _ & _ & _ & _ & _ & Hsod & _ & _).
  assert (Heq : preparer c = approver c) by (rewrite Hprep, Happ, Hsame; reflexivity).
  assert (Hfail : sod_pass c = false).
  { unfold sod_pass. rewrite Hsod, Hreq, Heq, String.eqb_refl. reflexivity. }
  split; [exact Heq |].
  cbn [result_of res_sod_violation res_status]. rewrite Hfail.
  split; [reflexivity |].
  apply status_Fail_iff, severity_High_iff. right. exact Hfail.
Qed.

Lemma equal_reviewer_cells_fail_sod_witness :
  exists c : locals,
    convert (H := sample_runtime) default_crit
      (<["preparer" := PyFloat nan]> (<["approver" := PyFloat nan]> clean_row)) = Ok c
    /\ preparer c = approver c
    /\ res_sod_violation (result_of c) = true
    /\ res_status (result_of c) = Fail.
Proof.
  eexists. split; [vm_compute; reflexivity |].
  exact (equal_reviewer_cells_fail_sod (H := sample_runtime) default_crit
           (<["preparer" := PyFloat nan]> (<["approver" := PyFloat nan]> clean_row)) _
           eq_refl eq_refl eq_refl).
Defined.

(** ** The loop: the first failure *)

Lemma mapM_Raise {A B : Type} (f : A -> result B) (l : list A) (e : exn) :
  mapM f l = Raise e
  <-> exists (pre : list A) (a : A) (post : list A),
        l = (pre ++ a :: post)%list
        /\ Forall (fun x => exists b, f x = Ok b) pre
        /\ f a = Raise e.
Proof.
  induction l as [| a l IH].
  - simpl. split; [discriminate |].
    intros (pre & x & post & Hl & _). destruct pre; discriminate.
  - cbn [mapM]. destruct (f a) as [b | e'] eqn:Hfa; cbn [bind].
    + assert (Hstep : (let* bs := mapM f l in Ok (b :: bs)) = Raise e
                      <-> mapM f l = Raise e).
      { destruct (mapM f l); cbn [bind]; split; intros Hx;
          try discriminate; exact Hx. }
      rewrite Hstep, IH. split.
      * intros (pre & x & post & Hl & Hpre & Hx).
        exists (a :: pre), x, post. subst l. split; [reflexivity |].
        split; [constructor; [exists b; exact Hfa | exact Hpre] | exact Hx].
      * intros (pre & x & post & Hl & Hpre & Hx).
        destruct pre as [| p pre]; simpl in Hl; inversion Hl; subst.
        -- congruence.
        -- exists pre, x, post. inversion Hpre. auto.
    + split.
      * intros Heq. inversion Heq. subst e'.
        exists [], a, l. split; [reflexivity |]. split; [constructor | exact Hfa].
      * intros (pre & x & post & Hl & Hpre & Hx).
        destruct pre as [| p pre]; simpl in Hl; inversion Hl; subst.
        -- congruence.
        -- inversion Hpre as [| ? ? [b Hb] ?]. congruence.
Qed.

(** X8: [evaluate] raises exactly when some record does, with the exception
    of the first such record; the results of the records before it are
    lost, and an empty sequence gives an empty result. *)
Theorem evaluate_raises_first_failure `{PyRuntime} (now : datetime)
    (df : list (gmap string pyval)) (crit : gmap string pyval) (v : string) (e : exn) :
  (App.evaluate now df crit v = Raise e
   <-> exists (pre : list (gmap string pyval)) (r : gmap string pyval)
              (post : list (gmap string pyval)),
         df = (pre ++ r :: post)%list
         /\ Forall (fun x => exists res, evaluate_row crit x = Ok res) pre
         /\ evaluate_row crit r = Raise e)
  /\ (Simple.evaluate now df crit v = Raise e <-> App.evaluate now df crit v = Raise e)
  /\ App.evaluate now [] crit v = Ok []
  /\ Simple.evaluate now [] crit v = Ok [].
Proof.
  split; [apply mapM_Raise |]. split; [| split; reflexivity].
  unfold Simple.evaluate, App.evaluate. rewrite mapM_then.
  destruct (mapM (evaluate_row crit) df); split; intros Hx;
    try discriminate; inversion Hx; reflexivity.
Qed.

(** ** Rows and criteria of numbers *)

Lemma int_of_float_finite (f : float) :
  PrimFloat.is_nan f = false -> PrimFloat.is_infinity f = false ->
  exists z, int_of_float f = Ok z.
Proof.
  intros Hnan Hinf. unfold int_of_float, Prim2SF. rewrite Hnan, Hinf.
  destruct (is_zero f); [eexists; reflexivity |].
  destruct (Z.frexp f) as [m ex].
  destruct (shr_fexp prec emax _ _ _) as [shr e'].
  destruct (shr_m shr); eexists; reflexivity.
Qed.

Lemma py_float_value `{PyRuntime} (v : pyval) :
  float_value v = true -> exists f, py_float v = Ok f.
Proof. destruct v; try discriminate; intros _; eexists; reflexivity. Qed.

Lemma py_int_value `{PyRuntime} (v : pyval) :
  count_value v = true -> exists z, py_int v = Ok z.
Proof.
  destruct v as [| b | z | f | s | d]; try discriminate;
    try (intros _; eexists; reflexivity).
  cbn [count_value py_int]. rewrite andb_true_iff, !negb_true_iff.
  intros [Hnan Hinf]. apply int_of_float_finite; assumption.
Qed.

Lemma py_float_cell `{PyRuntime} (v : pyval) :
  is_none v || float_value v = true -> exists f, py_float (py_or v (PyFloat 0)) = Ok f.
Proof.
  intros Hv. unfold py_or. destruct (py_truthy v) eqn:Ht.
  - destruct v; try discriminate; apply py_float_value; reflexivity.
  - eexists. reflexivity.
Qed.

Lemma py_int_cell `{PyRuntime} (v : pyval) :
  is_none v || count_value v = true -> exists z, py_int (py_or v (PyInt 0)) = Ok z.
Proof.
  intros Hv. unfold py_or. destruct (py_truthy v) eqn:Ht.
  - destruct v; try discriminate; apply py_int_value; exact Hv.
  - eexists. reflexivity.
Qed.

Lemma evaluate_row_numeric `{PyRuntime} (crit r : gmap string pyval) :
  numeric_criteria crit = true -> numeric_row r = true -> dated_row r = true ->
  exists res, evaluate_row crit r = Ok res.
Proof.
  unfold numeric_criteria, numeric_row, dated_row.
  rewrite !andb_true_iff, !negb_true_iff.
  intros [[Hta Htp] Hsla] [[Hgl Hsub] Hcnt] [Hao Hpe].
  destruct (py_float_cell _ Hgl) as [gl Egl].
  destruct (py_float_cell _ Hsub) as [sub Esub].
  destruct (py_int_cell _ Hcnt) as [n En].
  destruct (py_float_value _ Hta) as [ta Eta].
  destruct (py_float_value _ Htp) as [tp Etp].
  destruct (py_int_value _ Hsla) as [sla Esla].
  unfold evaluate_row, convert.
  rewrite Egl, Esub, En, Eta, Etp, Esla. cbn [bind].
  destruct (parse_date_safe (row_get r "approved_on")) as [[a |] |];
    try discriminate;
    destruct (parse_date_safe (row_get r "period_end_date")) as [[p |] |];
    try discriminate;
    cbn [days_of_difference bind]; eexists; reflexivity.
Qed.

(** X9: on records whose balances are absent or floats, whose count of
    aged items is absent or a count (an integer, or a float that is neither
    NaN nor infinite) and whose two date cells each convert to a date or to
    [None], not to NaT, under criteria whose numbers are absent or of these
    kinds, [evaluate] never raises and returns one result per record. *)
Theorem evaluate_total_on_numbers `{PyRuntime} (now : datetime)
    (df : list (gmap string pyval)) (crit : gmap string pyval) (v : string) :
  numeric_criteria crit = true ->
  Forall (fun r => numeric_row r = true /\ dated_row r = true) df ->
  (exists rs, App.evaluate now df crit v = Ok rs /\ length rs = length df)
  /\ (exists bs, Simple.evaluate now df crit v = Ok bs /\ length bs = length df).
Proof.
  intros Hcrit Hrows.
  assert (Hall : exists rs, mapM (evaluate_row crit) df = Ok rs
                            /\ length rs = length df).
  { induction Hrows as [| r df Hr Hrows IH].
    - exists []. split; reflexivity.
    - destruct Hr as [Hnum Hdated].
      destruct (evaluate_row_numeric crit r Hcrit Hnum Hdated) as [res Hres].
      destruct IH as (rs & Hrs & Hlen).
      exists (res :: rs). cbn [mapM]. rewrite Hres, Hrs. cbn [bind length].
      split; [reflexivity | rewrite Hlen; reflexivity]. }
  destruct Hall as (rs & Hrs & Hlen).
  split; [exists rs; split; [exact Hrs | exact Hlen] |].
  unfold Simple.evaluate. rewrite mapM_then, Hrs.
  eexists. split; [reflexivity |]. rewrite length_map. exact Hlen.
Qed.

Lemma evaluate_total_on_numbers_witness :
  (exists rs, App.evaluate (H := sample_runtime) noon [clean_row; ∅] default_crit "v1" = Ok rs
              /\ length rs = 2%nat)
  /\ (exists bs, Simple.evaluate (H := sample_runtime) noon [clean_row; ∅] default_crit "v1"
                 = Ok bs /\ length bs = 2%nat).
Proof.
  apply (evaluate_total_on_numbers (H := sample_runtime) noon [clean_row; ∅]
           default_crit "v1").
  - vm_compute. reflexivity.
  - repeat constructor; vm_compute; reflexivity.
Defined.

(** ** What is read and what is defaulted *)

(** X10: the result for a record depends on twelve columns of the row and
    five entries of the criteria only: rows that agree on [columns_read]
    and criteria that agree on [criteria_read] give the same outcome,
    whatever else they hold (period start, preparation date, count of
    reconciling items, aging threshold). *)
Theorem evaluate_reads_only `{PyRuntime} (crit crit' r r' : gmap string pyval) :
  (forall k, In k criteria_read -> crit !! k = crit' !! k) ->
  (forall k, In k columns_read -> r !! k = r' !! k) ->
  evaluate_row crit r = evaluate_row crit' r'.
Proof.
  intros Hcrit Hrow.
  assert (Hr : forall k, In k columns_read -> row_get r k = row_get r' k).
  { intros k Hk. unfold row_get. rewrite (Hrow k Hk). reflexivity. }
  assert (Hc : forall k d, In k criteria_read -> dict_get crit k d = dict_get crit' k d).
  { intros k d Hk. unfold dict_get. rewrite (Hcrit k Hk). reflexivity. }
  unfold evaluate_row, convert.
  rewrite !(Hr "entity"), !(Hr "account_id"), !(Hr "account_name"),
    !(Hr "period_end_date"), !(Hr "gl_ending_balance"),
    !(Hr "subledger_ending_balance"), !(Hr "preparer"), !(Hr "approver"),
    !(Hr "approved_on"), !(Hr "items_over_aging_threshold"),
    !(Hr "action_plan_present"), !(Hr "documentation_links") by in_list.
  rewrite !(Hc "tieout_tolerance_abs"), !(Hc "tieout_tolerance_pct"),
    !(Hc "require_sod"), !(Hc "timeliness_sla_days"),
    !(Hc "allow_items_over_threshold_with_plan") by in_list.
  reflexivity.
Qed.

Lemma evaluate_reads_only_witness :
  evaluate_row (H := sample_runtime) default_crit clean_row
  = evaluate_row (H := sample_runtime)
      (<["aging_threshold_days" := PyInt 90]> default_crit)
      (<["reconciling_items_count" := PyInt 7]>
         (<["period_start_date" := PyStr "2024-01-01"]> clean_row)).
Proof.
  apply (evaluate_reads_only (H := sample_runtime));
    intros k Hk; simpl in Hk;
    repeat (destruct Hk as [<- | Hk]; [vm_compute; reflexivity |]);
    destruct Hk.
Defined.

(** X11: an entry missing from the criteria is defaulted inside the loop:
    an SLA of 5 days, both tolerances 0.0 (not the 1000.0 and 0.002 that the
    batch file's [main] and the application's sidebar start from), SoD
    required and plans allowed. *)
Theorem criteria_defaults `{PyRuntime} (crit r : gmap string pyval) (c : locals) :
  convert crit r = Ok c ->
  (crit !! "timeliness_sla_days" = None -> sla_days c = 5)
  /\ (crit !! "tieout_tolerance_abs" = None -> tol_abs c = 0%float)
  /\ (crit !! "tieout_tolerance_pct" = None -> tol_pct c = 0%float)
  /\ (crit !! "require_sod" = None -> sod_required c = true)
  /\ (crit !! "allow_items_over_threshold_with_plan" = None ->
      allow_over_with_plan c = true).
Proof.
  intros Hc. apply convert_Ok in Hc.
  destruct Hc as (_ & _ & _ & _ & _ & _ & _ & _ & Hta & Htp & Hsod & Hsla & Hallow).
  unfold dict_get in *.
  repeat split; intros Hnone; rewrite Hnone in *; cbn in *; congruence.
Qed.

Lemma criteria_defaults_witness :
  exists c : locals,
    convert (H := sample_runtime) ∅ clean_row = Ok c
    /\ sla_days c = 5 /\ tol_abs c = 0%float /\ tol_pct c = 0%float
    /\ sod_required c = true /\ allow_over_with_plan c = true
    /\ tieout_pass c = false.
Proof.
  eexists. split; [vm_compute; reflexivity |].
  pose proof (criteria_defaults (H := sample_runtime) ∅ clean_row _ eq_refl)
    as (H1 & H2 & H3 & H4 & H5).
  split; [apply H1; reflexivity |]. split; [apply H2; reflexivity |].
  split; [apply H3; reflexivity |]. split; [apply H4; reflexivity |].
  split; [apply H5; reflexivity | reflexivity].
Defined.

(** ** Coercion to a truth value: case and surrounding white space *)

Lemma lower_char_idem (c : ascii) : lower_char (lower_char c) = lower_char c.
Proof. destruct c as [[] [] [] [] [] [] [] []]; reflexivity. Qed.

Lemma isspace_lower_char (c : ascii) : isspace (lower_char c) = isspace c.
Proof. destruct c as [[] [] [] [] [] [] [] []]; reflexivity. Qed.

Lemma lower_idem (s : string) : lower (lower s) = lower s.
Proof.
  induction s as [| c s IH]; simpl; [reflexivity |].
  rewrite lower_char_idem, IH. reflexivity.
Qed.

Lemma lower_lstrip (s : string) : lower (lstrip s) = lstrip (lower s).
Proof.
  induction s as [| c s IH]; simpl; [reflexivity |].
  rewrite isspace_lower_char. destruct (isspace c); [exact IH | reflexivity].
Qed.

Lemma lower_rstrip (s : string) : lower (rstrip s) = rstrip (lower s).
Proof.
  induction s as [| c s IH]; simpl; [reflexivity |].
  rewrite <- IH, isspace_lower_char.
  destruct (rstrip s) as [| c' t]; simpl; [| reflexivity].
  destruct (isspace c); reflexivity.
Qed.

Lemma lower_strip (s : string) : lower (strip s) = strip (lower s).
Proof. unfold strip. rewrite lower_rstrip, lower_lstrip. reflexivity. Qed.

Lemma lstrip_all_space (a s : string) :
  all_space a = true -> lstrip (a ++ s) = lstrip s.
Proof.
  induction a as [| c a IH]; simpl; [reflexivity |].
  rewrite andb_true_iff. intros [Hc Ha]. rewrite Hc. apply IH. exact Ha.
Qed.

Lemma rstrip_all_space (b : string) : all_space b = true -> rstrip b = "".
Proof.
  induction b as [| c b IH]; simpl; [reflexivity |].
  rewrite andb_true_iff. intros [Hc Hb]. rewrite (IH Hb), Hc. reflexivity.
Qed.

Lemma rstrip_app_space (s b : string) :
  all_space b = true -> rstrip (s ++ b) = rstrip s.
Proof.
  intros Hb. induction s as [| c s IH]; simpl.
  - apply rstrip_all_space. exact Hb.
  - rewrite IH. reflexivity.
Qed.

Lemma lstrip_only_space (b : string) : all_space b = true -> lstrip b = "".
Proof.
  induction b as [| c b IH]; simpl; [reflexivity |].
  rewrite andb_true_iff. intros [Hc Hb]. rewrite Hc. apply IH. exact Hb.
Qed.

Lemma strip_app_space (s b : string) :
  all_space b = true -> strip (s ++ b) = strip s.
Proof.
  intros Hb. unfold strip. induction s as [| c s IH].
  - change ("" ++ b) with b. rewrite (lstrip_only_space b Hb). reflexivity.
  - change (String c s ++ b) with (String c (s ++ b)). cbn [lstrip].
    destruct (isspace c); [exact IH |].
    change (String c (s ++ b)) with (String c s ++ b).
    apply rstrip_app_space. exact Hb.
Qed.

(** X12: the coercion of a text does not depend on its case nor on white
    space around it: putting it in lower case, or adding white space in
    front of it and behind it, changes nothing. *)
Theorem to_bool_ignores_case_and_padding (s a b : string) :
  to_bool (PyStr (lower s)) = to_bool (PyStr s)
  /\ (all_space a = true -> all_space b = true ->
      to_bool (PyStr (a ++ s ++ b)) = to_bool (PyStr s)).
Proof.
  split.
  - cbn [to_bool]. rewrite <- lower_strip, lower_idem. reflexivity.
  - intros Ha Hb. cbn [to_bool]. f_equal. f_equal.
    unfold strip at 1. rewrite (lstrip_all_space a (s ++ b) Ha).
    apply (strip_app_space s b Hb).
Qed.

(** ** The export address of a Google sheet *)

Lemma append_nil_l (s : string) : "" ++ s = s.
Proof. reflexivity. Qed.

Lemma append_cons (c : ascii) (t s : string) : String c t ++ s = String c (t ++ s).
Proof. reflexivity. Qed.

Lemma star_greedy_all {R : Type} (cs : ascii -> bool) (s : string)
    (k : string -> string -> option R) (out : R) :
  (forall t rest, k t rest = Some out) -> star_greedy cs s k = Some out.
Proof.
  revert k. induction s as [| c s IH]; intros k Hk; cbn [star_greedy].
  - apply Hk.
  - destruct (cs c); [| apply Hk].
    rewrite (IH (fun t rest => k (String c t) rest)); [reflexivity |].
    intros t rest. apply Hk.
Qed.

Lemma star_greedy_inv {R : Type} (P : R -> Prop) (cs : ascii -> bool) (s : string)
    (k : string -> string -> option R) (out : R) :
  (forall t rest o, k t rest = Some o -> P o) ->
  star_greedy cs s k = Some out -> P out.
Proof.
  revert k. induction s as [| c s IH]; intros k Hk; cbn [star_greedy].
  - apply Hk.
  - destruct (cs c); [| apply Hk].
    destruct (star_greedy cs s (fun t rest => k (String c t) rest)) as [o |] eqn:Hin.
    + intros Heq. inversion Heq. subst o.
      apply (IH (fun t rest => k (String c t) rest)); [| exact Hin].
      intros t rest o. apply Hk.
    + apply Hk.
Qed.

Lemma star_greedy_longest {R : Type} (cs : ascii -> bool) (s : string)
    (k : string -> string -> option R) (out : R) :
  k (take_while cs s) (drop_while cs s) = Some out -> star_greedy cs s k = Some out.
Proof.
  revert k. induction s as [| c s IH]; intros k; cbn [star_greedy take_while drop_while].
  - tauto.
  - destruct (cs c); [| tauto].
    intros Hk. rewrite (IH (fun t rest => k (String c t) rest) Hk). reflexivity.
Qed.

Lemma star_greedy_None {R : Type} (cs : ascii -> bool) (s : string)
    (k : string -> string -> option R) :
  star_greedy cs s k = None
  <-> forall t rest, s = t ++ rest -> all_chars cs t = true -> k t rest = None.
Proof.
  revert k. induction s as [| c s IH]; intros k; cbn [star_greedy].
  - split.
    + intros Hk t rest Hs _. destruct t as [| c' t].
      * rewrite append_nil_l in Hs. subst rest. exact Hk.
      * rewrite append_cons in Hs. discriminate Hs.
    + intros Hall. apply (Hall "" ""); reflexivity.
  - assert (Hshort : (forall t rest, String c s = t ++ rest ->
                                     all_chars cs t = true -> k t rest = None)
                     -> k "" (String c s) = None).
    { intros Hall. apply (Hall "" (String c s)); reflexivity. }
    assert (Hsplit : k "" (String c s) = None ->
                     (cs c = true ->
                      forall t rest, s = t ++ rest -> all_chars cs t = true ->
                                     k (String c t) rest = None) ->
                     forall t rest, String c s = t ++ rest ->
                                    all_chars cs t = true -> k t rest = None).
    { intros Hk Hlong t rest Hs Ht. destruct t as [| c' t].
      - rewrite append_nil_l in Hs. subst rest. exact Hk.
      - rewrite append_cons in Hs. inversion Hs. subst c' s.
        cbn [all_chars] in Ht. apply andb_true_iff in Ht. destruct Ht as [Hc Ht].
        apply Hlong; [exact Hc | reflexivity | exact Ht]. }
    destruct (cs c) eqn:Hc.
    + destruct (star_greedy cs s (fun t rest => k (String c t) rest)) as [o |] eqn:Hin.
      * split; [discriminate |].
        intros Hall. exfalso.
        assert (Hnone : star_greedy cs s (fun t rest => k (String c t) rest) = None).
        { apply IH. intros t rest Hs Ht. apply Hall.
          - rewrite append_cons, Hs. reflexivity.
          - cbn [all_chars]. rewrite Hc. exact Ht. }
        congruence.
      * split; [| exact Hshort].
        intros Hk. apply Hsplit; [exact Hk |].
        intros _. apply (proj1 (IH (fun t rest => k (String c t) rest)) Hin).
    + split; [| exact Hshort].
      intros Hk. apply Hsplit; [exact Hk |]. discriminate.
Qed.

Lemma star_lazy_first {R : Type} (cs : ascii -> bool) (s : string)
    (k : string -> string -> option R) (out : R) :
  k "" s = Some out -> star_lazy cs s k = Some out.
Proof. intros Hk. destruct s; cbn [star_lazy]; rewrite Hk; reflexivity. Qed.

Lemma after_prefix_app (l s rest : string) :
  after_prefix l s = Some rest <-> s = l ++ rest.
Proof.
  revert s. induction l as [| a l IH]; intros s; simpl.
  - split; [intros Heq; inversion Heq; reflexivity | intros ->; reflexivity].
  - destruct s as [| b s]; [split; discriminate |].
    destruct (Ascii.eqb a b) eqn:Hab.
    + apply Ascii.eqb_eq in Hab. subst b. rewrite IH. split.
      * intros ->. reflexivity.
      * intros Heq. inversion Heq. reflexivity.
    + apply Ascii.eqb_neq in Hab. split; [discriminate |].
      intros Heq. inversion Heq. congruence.
Qed.

Lemma drop_while_head (cs : ascii -> bool) (s : string) :
  match drop_while cs s with
  | String c _ => cs c = false
  | EmptyString => True
  end.
Proof.
  induction s as [| c s IH]; simpl; [exact I |].
  destruct (cs c) eqn:Hc; [exact IH | exact Hc].
Qed.

Lemma take_while_all (cs : ascii -> bool) (s : string) :
  all_chars cs (take_while cs s) = true.
Proof.
  induction s as [| c s IH]; simpl; [reflexivity |].
  destruct (cs c) eqn:Hc; simpl; [rewrite Hc; exact IH | reflexivity].
Qed.

(** After the longest run of identifier characters no [gid=] can start. *)
Lemma no_gid_after_id (s : string) :
  after_prefix "gid=" (drop_while id_char s) = None.
Proof.
  pose proof (drop_while_head id_char s) as Hhead.
  destruct (drop_while id_char s) as [| c rest]; [reflexivity |].
  cbn [after_prefix]. destruct (Ascii.eqb "g" c) eqn:Hg; [| reflexivity].
  apply Ascii.eqb_eq in Hg. subst c. discriminate Hhead.
Qed.

(** The pattern from the first group on. *)
Lemma match_from_id (k : string -> string -> gmap nat string -> option (gmap nat string))
    (s : string) (caps : gmap nat string) :
  accepts_all k ->
  re_match (Seq (Group 1 (Plus id_char))
              (Seq (Star false dot)
                 (Seq (Opt (Seq (Lit "gid=") (Group 2 (Plus digit)))) (Star true dot))))
    s caps k
  = match s with
    | String c s' =>
        if id_char c then Some (<[1%nat := String c (take_while id_char s')]> caps)
        else None
    | EmptyString => None
    end.
Proof.
  intros Hk. cbn [re_match].
  destruct s as [| c s']; [reflexivity |].
  destruct (id_char c); [| reflexivity].
  apply star_greedy_longest.
  apply star_lazy_first.
  rewrite no_gid_after_id.
  apply star_greedy_all. intros t rest. apply Hk.
Qed.

(** The pattern from the literal on. *)
Lemma match_from_literal (k : string -> string -> gmap nat string -> option (gmap nat string))
    (s : string) (caps : gmap nat string) :
  accepts_all k ->
  re_match (Seq (Lit "spreadsheets/d/")
              (Seq (Group 1 (Plus id_char))
                 (Seq (Star false dot)
                    (Seq (Opt (Seq (Lit "gid=") (Group 2 (Plus digit))))
                       (Star true dot)))))
    s caps k
  = match after_prefix "spreadsheets/d/" s with
    | Some (String c s') =>
        if id_char c then Some (<[1%nat := String c (take_while id_char s')]> caps)
        else None
    | _ => None
    end.
Proof.
  intros Hk.
  change (re_match (Seq (Lit "spreadsheets/d/") ?r2) s caps k)
    with (match after_prefix "spreadsheets/d/" s with
          | Some rest =>
              re_match r2 rest caps
                (fun t2 rest2 caps2 => k ("spreadsheets/d/" ++ t2) rest2 caps2)
          | None => None
          end).
  destruct (after_prefix "spreadsheets/d/" s) as [rest |]; [| reflexivity].
  rewrite match_from_id; [reflexivity |].
  intros t rest' caps'. apply Hk.
Qed.

(** What [re.match] of the pattern returns: only the first group, never the
    second. *)
Lemma gsheet_match_groups (url : string) (m : gmap nat string) :
  py_re_match gsheet_pattern url = Some m ->
  exists c s', id_char c = true /\ m = <[1%nat := String c (take_while id_char s')]> ∅.
Proof.
  unfold py_re_match, gsheet_pattern.
  change (re_match (Seq (Star true dot) ?r2) url ∅ ?k)
    with (star_greedy dot url
            (fun t1 rest1 =>
               re_match r2 rest1 ∅ (fun t2 rest2 caps2 => k (t1 ++ t2) rest2 caps2))).
  intros Hm.
  apply (star_greedy_inv
           (fun o => exists c s', id_char c = true
                                  /\ o = <[1%nat := String c (take_while id_char s')]> ∅)
           _ _ _ _) with (2 := Hm).
  intros t rest o.
  rewrite match_from_literal by (intros ? ? ?; reflexivity).
  destruct (after_prefix "spreadsheets/d/" rest) as [[| c s'] |]; try discriminate.
  destruct (id_char c) eqn:Hc; [| discriminate].
  intros Heq. inversion Heq. exists c, s'. split; [exact Hc | reflexivity].
Qed.

(** X13: whatever the address, the export address is that of the first
    tab: the [gid] of the address is never taken over, the result ends in
    [gid=0], and the sheet identifier in it is a non-empty run of letters,
    digits, hyphens and underscores. *)
Theorem gsheet_export_drops_gid (url out : string) :
  gsheet_to_csv_export url = Some out ->
  exists id : string,
    id <> "" /\ all_chars id_char id = true
    /\ out = "https://docs.google.com/spreadsheets/d/" ++ id ++ "/export?format=csv&gid=0".
Proof.
  unfold gsheet_to_csv_export.
  destruct (py_re_match gsheet_pattern url) as [m |] eqn:Hm; [| discriminate].
  destruct (gsheet_match_groups url m Hm) as (c & s' & Hc & ->).
  intros Heq. inversion Heq. clear Heq.
  exists (String c (take_while id_char s')).
  split; [discriminate |]. split.
  - cbn [all_chars]. rewrite Hc. apply take_while_all.
  - unfold group_text. rewrite lookup_insert_eq.
    rewrite lookup_insert_ne by discriminate. rewrite lookup_empty. reflexivity.
Qed.

Lemma gsheet_export_drops_gid_witness :
  exists id : string,
    id <> "" /\ all_chars id_char id = true
    /\ "https://docs.google.com/spreadsheets/d/1AbC-dE_9/export?format=csv&gid=0"
       = "https://docs.google.com/spreadsheets/d/" ++ id ++ "/export?format=csv&gid=0".
Proof.
  exact (gsheet_export_drops_gid
           "https://docs.google.com/spreadsheets/d/1AbC-dE_9/edit#gid=123"
           "https://docs.google.com/spreadsheets/d/1AbC-dE_9/export?format=csv&gid=0"
           eq_refl).
Defined.

(** X14: an address is rejected exactly when its first line holds no
    [spreadsheets/d/] followed by a letter, a digit, a hyphen or an
    underscore. *)
Theorem gsheet_export_rejects (url : string) :
  gsheet_to_csv_export url = None
  <-> ~ exists (a b : string) (c : ascii),
          url = a ++ "spreadsheets/d/" ++ String c b
          /\ all_chars dot a = true /\ id_char c = true.
Proof.
  assert (Hnone : gsheet_to_csv_export url = None
                  <-> py_re_match gsheet_pattern url = None).
  { unfold gsheet_to_csv_export.
    destruct (py_re_match gsheet_pattern url); split; intros Hx;
      try discriminate; reflexivity. }
  rewrite Hnone. unfold py_re_match, gsheet_pattern.
  change (re_match (Seq (Star true dot) ?r2) url ∅ ?k)
    with (star_greedy dot url
            (fun t1 rest1 =>
               re_match r2 rest1 ∅ (fun t2 rest2 caps2 => k (t1 ++ t2) rest2 caps2))).
  rewrite star_greedy_None. split.
  - intros Hall (a & b & c & Hurl & Ha & Hc).
    specialize (Hall a ("spreadsheets/d/" ++ String c b) Hurl Ha).
    rewrite match_from_literal in Hall by (intros ? ? ?; reflexivity).
    assert (Hpre : after_prefix "spreadsheets/d/" ("spreadsheets/d/" ++ String c b)
                   = Some (String c b)) by (apply after_prefix_app; reflexivity).
    rewrite Hpre, Hc in Hall. discriminate Hall.
  - intros Hno t rest Hurl Ht.
    rewrite match_from_literal by (intros ? ? ?; reflexivity).
    destruct (after_prefix "spreadsheets/d/" rest) as [[| c s'] |] eqn:Hpre;
      try reflexivity.
    destruct (id_char c) eqn:Hc; [| reflexivity].
    exfalso. apply Hno. exists t, s', c.
    apply after_prefix_app in Hpre. subst rest.
    split; [exact Hurl |]. split; [exact Ht | exact Hc].
Qed.

(** ** Normalising the columns of a frame *)

Lemma assoc_None (l : string) (cols : list (string * list pyval)) :
  assoc l cols = None <-> ~ In l (map fst cols).
Proof.
  induction cols as [| [l' v] cols IH]; simpl.
  - tauto.
  - destruct (String.eqb l' l) eqn:Heq.
    + apply String.eqb_eq in Heq. split; [discriminate | tauto].
    + apply String.eqb_neq in Heq. rewrite IH. tauto.
Qed.

Lemma assoc_In (l : string) (cols : list (string * list pyval)) :
  In l (map fst cols) <-> exists v, assoc l cols = Some v.
Proof.
  pose proof (assoc_None l cols) as Hnone.
  destruct (assoc l cols) as [v |].
  - split; [intros _; exists v; reflexivity |].
    intros _. destruct (in_dec string_dec l (map fst cols)) as [Hin | Hout];
      [exact Hin |]. apply Hnone in Hout. discriminate.
  - split; [| intros [v Hv]; discriminate].
    intros Hin. exfalso. apply (proj1 Hnone); [reflexivity | exact Hin].
Qed.

Lemma has_column_In (l : string) (df : frame) :
  has_column l df = true <-> In l (labels df).
Proof.
  unfold has_column. rewrite existsb_exists. split.
  - intros [x [Hx Heq]]. apply String.eqb_eq in Heq. subst x. exact Hx.
  - intros Hin. exists l. split; [exact Hin | apply String.eqb_refl].
Qed.

Lemma has_column_false (l : string) (df : frame) :
  has_column l df = false <-> ~ In l (labels df).
Proof.
  rewrite <- has_column_In. destruct (has_column l df); split; intros Hx;
    try discriminate; try reflexivity.
  exfalso. apply Hx. reflexivity.
Qed.

Lemma labels_rename (src std : string) (df : frame) :
  labels (rename_column src std df)
  = map (fun l => if String.eqb l src then std else l) (labels df).
Proof. unfold labels, rename_column. cbn [columns]. rewrite !map_map. reflexivity. Qed.

Lemma In_labels_rename (k src std : string) (df : frame) :
  In k (labels (rename_column src std df)) ->
  k = std \/ (k <> src /\ In k (labels df)).
Proof.
  rewrite labels_rename, in_map_iff. intros [l [Hl Hin]].
  destruct (String.eqb l src) eqn:Heq.
  - left. symmetry. exact Hl.
  - apply String.eqb_neq in Heq. right. subst k. split; [exact Heq | exact Hin].
Qed.

Lemma assoc_rename_new (src std : string) (df : frame) :
  ~ In std (labels df) \/ std = src ->
  assoc std (columns (rename_column src std df)) = assoc src (columns df).
Proof.
  unfold labels, rename_column. cbn [columns].
  induction (columns df) as [| [l v] cols IH]; cbn [map assoc fst snd]; [reflexivity |].
  intros Hfree. destruct (String.eqb l src) eqn:Heq.
  - rewrite String.eqb_refl. reflexivity.
  - assert (Hne : String.eqb l std = false).
    { apply String.eqb_neq. intros ->. destruct Hfree as [Hfree | ->].
      - apply Hfree. left. reflexivity.
      - rewrite String.eqb_refl in Heq. discriminate. }
    rewrite Hne. apply IH. destruct Hfree as [Hfree | ->]; [left | right; reflexivity].
    intros Hin. apply Hfree. right. exact Hin.
Qed.

Lemma assoc_rename_other (k src std : string) (df : frame) :
  k <> src -> k <> std ->
  assoc k (columns (rename_column src std df)) = assoc k (columns df).
Proof.
  intros Hsrc Hstd. unfold rename_column. cbn [columns].
  induction (columns df) as [| [l v] cols IH]; cbn [map assoc fst snd]; [reflexivity |].
  destruct (String.eqb l src) eqn:Heq.
  - apply String.eqb_eq in Heq. subst l.
    assert (H1 : String.eqb std k = false) by (apply String.eqb_neq; congruence).
    assert (H2 : String.eqb src k = false) by (apply String.eqb_neq; congruence).
    rewrite H1, H2. exact IH.
  - destruct (String.eqb l k); [reflexivity | exact IH].
Qed.

Lemma NoDup_rename (src std : string) (df : frame) :
  List.NoDup (labels df) -> ~ In std (labels df) \/ std = src ->
  List.NoDup (labels (rename_column src std df)).
Proof.
  rewrite labels_rename. induction (labels df) as [| l ls IH]; cbn [map].
  - intros _ _. constructor.
  - intros Hnd Hfree. inversion Hnd as [| ? ? Hnotin Hnd']. subst.
    assert (Hfree' : ~ In std ls \/ std = src).
    { destruct Hfree as [Hfree | ->]; [left | right; reflexivity].
      intros Hin. apply Hfree. right. exact Hin. }
    constructor; [| apply IH; assumption].
    rewrite in_map_iff. intros [l' [Hl' Hin]].
    destruct (String.eqb l src) eqn:Hl; destruct (String.eqb l' src) eqn:Hl2.
    + apply String.eqb_eq in Hl, Hl2. subst. contradiction.
    + apply String.eqb_eq in Hl. subst l' l.
      destruct Hfree as [Hfree | ->].
      * apply Hfree. right. exact Hin.
      * contradiction.
    + apply String.eqb_eq in Hl2. subst l' l.
      destruct Hfree as [Hfree | ->].
      * apply Hfree. left. reflexivity.
      * rewrite String.eqb_refl in Hl. discriminate.
    + subst l'. contradiction.
Qed.

Lemma set_none_fresh (std : string) (df : frame) :
  ~ In std (labels df) ->
  set_none std df
  = mkFrame (nrows df) (columns df ++ [(std, none_column (nrows df))]).
Proof.
  intros Hfree. unfold set_none.
  apply has_column_false in Hfree. rewrite Hfree. reflexivity.
Qed.

Lemma assoc_app_fresh (k std : string) (v : list pyval) (cols : list (string * list pyval)) :
  assoc k (cols ++ [(std, v)])
  = match assoc k cols with
    | Some w => Some w
    | None => if String.eqb std k then Some v else None
    end.
Proof.
  induction cols as [| [l w] cols IH]; cbn [app assoc]; [reflexivity |].
  destruct (String.eqb l k); [reflexivity | exact IH].
Qed.

Lemma columns_labelled_unique (l : string) (v : list pyval) (df : frame) :
  List.NoDup (labels df) -> assoc l (columns df) = Some v ->
  columns_labelled l df = [(l, v)].
Proof.
  unfold labels, columns_labelled.
  induction (columns df) as [| [l' w] cols IH]; cbn [map assoc List.filter fst]; [discriminate |].
  intros Hnd. inversion Hnd as [| ? ? Hnotin Hnd']. subst.
  destruct (String.eqb l' l) eqn:Heq.
  - apply String.eqb_eq in Heq. subst l'. intros Hv. inversion Hv. subst w.
    f_equal.
    assert (Hnone : forall cs, ~ In l (map fst cs) ->
                    List.filter (fun col : string * list pyval => String.eqb (fst col) l) cs = []).
    { induction cs as [| [l2 w2] cs IHcs]; cbn [map List.filter fst]; [reflexivity |].
      intros Hout. assert (Hne : String.eqb l2 l = false).
      { apply String.eqb_neq. intros ->. apply Hout. left. reflexivity. }
      rewrite Hne. apply IHcs. intros Hin. apply Hout. right. exact Hin. }
    apply Hnone. exact Hnotin.
  - apply IH. exact Hnd'.
Qed.

Lemma columns_labelled_missing (l : string) (df : frame) :
  ~ In l (labels df) -> columns_labelled l df = [].
Proof.
  unfold labels, columns_labelled.
  induction (columns df) as [| [l' w] cols IH]; cbn [map List.filter fst]; [reflexivity |].
  intros Hout. assert (Hne : String.eqb l' l = false).
  { apply String.eqb_neq. intros ->. apply Hout. left. reflexivity. }
  rewrite Hne. apply IH. intros Hin. apply Hout. right. exact Hin.
Qed.

Lemma select_unique (value : string -> list pyval) (ls : list string) (df : frame) :
  List.NoDup (labels df) ->
  (forall l, In l ls -> assoc l (columns df) = Some (value l)) ->
  select ls df = Some (map (fun l => (l, value l)) ls).
Proof.
  intros Hnd. induction ls as [| l ls IH]; cbn [select map]; [reflexivity |].
  intros Hall.
  rewrite (columns_labelled_unique l (value l) df Hnd) by (apply Hall; left; reflexivity).
  rewrite IH by (intros l' Hl'; apply Hall; right; exact Hl').
  reflexivity.
Qed.

Lemma select_missing (l : string) (ls : list string) (df : frame) :
  In l ls -> ~ In l (labels df) -> select ls df = None.
Proof.
  intros Hin Hout. induction ls as [| l' ls IH]; [destruct Hin |].
  cbn [select]. destruct Hin as [-> | Hin].
  - rewrite (columns_labelled_missing l df Hout). reflexivity.
  - rewrite (IH Hin). destruct (columns_labelled l' df); reflexivity.
Qed.

Lemma NoDup_snoc (x : string) (l : list string) :
  List.NoDup l -> ~ In x l -> List.NoDup (l ++ [x]).
Proof.
  induction l as [| y l IH]; cbn [app]; intros Hnd Hout.
  - constructor; [intros [] | constructor].
  - inversion Hnd as [| ? ? Hy Hnd']. subst. constructor.
    + rewrite in_app_iff. intros [Hin | [-> | []]]; [contradiction |].
      apply Hout. left. reflexivity.
    + apply IH; [exact Hnd' |]. intros Hin. apply Hout. right. exact Hin.
Qed.

Lemma NoDup_map_injective (f : string -> string) (l : list string) (a b : string) :
  List.NoDup (map f l) -> In a l -> In b l -> f a = f b -> a = b.
Proof.
  induction l as [| x l IH]; cbn [map]; [intros _ [] |].
  intros Hnd Ha Hb Hf. inversion Hnd as [| ? ? Hx Hnd']. subst.
  destruct Ha as [-> | Ha], Hb as [-> | Hb].
  - reflexivity.
  - exfalso. apply Hx. rewrite Hf. apply in_map. exact Hb.
  - exfalso. apply Hx. rewrite <- Hf. apply in_map. exact Ha.
  - apply IH; assumption.
Qed.

Lemma In_labels_set_none (k std : string) (df : frame) :
  In k (labels (set_none std df)) -> In k (labels df) \/ k = std.
Proof.
  unfold set_none, labels. destruct (has_column std df); cbn [columns].
  - rewrite map_map. intros Hin. left.
    apply in_map_iff in Hin. destruct Hin as [[l v] [Hk Hin]].
    apply in_map_iff. exists (l, v). split; [| exact Hin].
    cbn [fst] in Hk. destruct (String.eqb l std); exact Hk.
  - rewrite map_app, in_app_iff. cbn [map fst In].
    intros [Hin | [Heq | []]]; [left; exact Hin | right; symmetry; exact Heq].
Qed.

(** One turn of the loop keeps what the loop relies on. *)
Lemma normalize_fold (src : string -> string) (df0 : frame) :
  forall (todo done : list string) (cur : frame),
    List.NoDup (done ++ todo) ->
    (forall s1 s2, In s1 (done ++ todo) -> In s2 (done ++ todo) ->
                   src s1 = src s2 -> s1 = s2) ->
    (forall s, In s (done ++ todo) -> src s <> s -> ~ In (src s) (done ++ todo)) ->
    nrows cur = nrows df0 ->
    List.NoDup (labels cur) ->
    (forall s, In s done -> assoc s (columns cur) = Some (source_column src df0 s)) ->
    (forall s, In s todo -> assoc (src s) (columns cur) = assoc (src s) (columns df0)) ->
    (forall s, In s todo -> src s <> s -> ~ In s (labels cur)) ->
    let fin := fold_left (fun d std => normalize_step d std (src std)) todo cur in
    nrows fin = nrows df0
    /\ List.NoDup (labels fin)
    /\ (forall s, In s (done ++ todo) ->
                  assoc s (columns fin) = Some (source_column src df0 s)).
Proof.
  induction todo as [| s todo IH]; intros done cur Hnd Hinj Hcross Hn Hndl I2 I3 I4.
  - cbn [fold_left]. rewrite app_nil_r. auto.
  - cbn [fold_left].
    assert (Hall_s : In s (done ++ s :: todo))
      by (apply in_or_app; right; left; reflexivity).
    assert (Hs_done : ~ In s done).
    { intros Hin. apply NoDup_remove_2 in Hnd. apply Hnd.
      apply in_or_app. left. exact Hin. }
    assert (Hs_todo : ~ In s todo).
    { intros Hin. apply NoDup_remove_2 in Hnd. apply Hnd.
      apply in_or_app. right. exact Hin. }
    assert (F1 : forall x, In x (done ++ s :: todo) -> x <> s -> src x <> s).
    { intros x Hx Hne Hsrc. destruct (string_dec (src x) x) as [Hid | Hmv].
      - congruence.
      - apply (Hcross x Hx Hmv). rewrite Hsrc. exact Hall_s. }
    assert (F2 : forall x, In x (done ++ s :: todo) -> x <> s -> src x <> src s).
    { intros x Hx Hne Hsrc. apply Hne. apply Hinj; assumption. }
    assert (F3 : forall x, In x (done ++ s :: todo) -> x <> s -> x <> src s).
    { intros x Hx Hne Heq. destruct (string_dec (src s) s) as [Hid | Hmv].
      - congruence.
      - apply (Hcross s Hall_s Hmv). rewrite <- Heq. exact Hx. }
    assert (Hfree : ~ In s (labels cur) \/ s = src s).
    { destruct (string_dec (src s) s) as [Hid | Hmv].
      - right. symmetry. exact Hid.
      - left. apply I4; [left; reflexivity | exact Hmv]. }
    assert (Htodo_all : forall x, In x todo -> In x (done ++ s :: todo)).
    { intros x Hx. apply in_or_app. right. right. exact Hx. }
    assert (Hdone_all : forall x, In x done -> In x (done ++ s :: todo)).
    { intros x Hx. apply in_or_app. left. exact Hx. }
    assert (Hne_todo : forall x, In x todo -> x <> s) by (intros x Hx ->; contradiction).
    assert (Hne_done : forall x, In x done -> x <> s) by (intros x Hx ->; contradiction).
    assert (Hstep :
      let cur' := normalize_step cur s (src s) in
      nrows cur' = nrows df0
      /\ List.NoDup (labels cur')
      /\ (forall x, In x (done ++ [s]) ->
                    assoc x (columns cur') = Some (source_column src df0 x))
      /\ (forall x, In x todo ->
                    assoc (src x) (columns cur') = assoc (src x) (columns df0))
      /\ (forall x, In x todo -> src x <> x -> ~ In x (labels cur'))).
    { unfold normalize_step. destruct (has_column (src s) cur) eqn:Hhas; cbn zeta.
      - (* the source column is there: it is renamed *)
        apply has_column_In in Hhas. apply assoc_In in Hhas. destruct Hhas as [v Hv].
        split; [exact Hn |].
        split; [apply NoDup_rename; assumption |].
        split; [| split].
        + intros x Hx. apply in_app_iff in Hx. destruct Hx as [Hx | [<- | []]].
          * rewrite assoc_rename_other.
            -- apply I2. exact Hx.
            -- apply F3; [apply Hdone_all; exact Hx | apply Hne_done; exact Hx].
            -- apply Hne_done. exact Hx.
          * rewrite assoc_rename_new by exact Hfree.
            unfold source_column.
            rewrite <- (I3 s) by (left; reflexivity). rewrite Hv. reflexivity.
        + intros x Hx. rewrite assoc_rename_other.
          * apply I3. right. exact Hx.
          * apply F2; [apply Htodo_all; exact Hx | apply Hne_todo; exact Hx].
          * apply F1; [apply Htodo_all; exact Hx | apply Hne_todo; exact Hx].
        + intros x Hx Hmv Hin. apply In_labels_rename in Hin.
          destruct Hin as [-> | [_ Hin]].
          * contradiction.
          * apply (I4 x); [right; exact Hx | exact Hmv | exact Hin].
      - (* the source column is not there: a column of None is added *)
        apply has_column_false in Hhas.
        assert (Hfresh : ~ In s (labels cur)).
        { destruct Hfree as [Hfree | Heq]; [exact Hfree |]. rewrite Heq. exact Hhas. }
        rewrite (set_none_fresh s cur Hfresh).
        assert (Hmissing : assoc (src s) (columns df0) = None).
        { rewrite <- (I3 s) by (left; reflexivity). apply assoc_None. exact Hhas. }
        split; [exact Hn |].
        split; [| split; [| split]].
        * unfold labels. cbn [columns]. rewrite map_app. cbn [map fst].
          apply NoDup_snoc; assumption.
        * intros x Hx. cbn [columns]. rewrite assoc_app_fresh.
          apply in_app_iff in Hx. destruct Hx as [Hx | [<- | []]].
          -- rewrite (I2 x Hx). reflexivity.
          -- assert (Hnone : assoc s (columns cur) = None)
               by (apply assoc_None; exact Hfresh).
             rewrite Hnone, String.eqb_refl.
             unfold source_column. rewrite Hmissing, Hn. reflexivity.
        * intros x Hx. cbn [columns]. rewrite assoc_app_fresh.
          assert (Hne : String.eqb s (src x) = false).
          { apply String.eqb_neq. intros Heq.
            apply (F1 x (Htodo_all x Hx) (Hne_todo x Hx)). symmetry. exact Heq. }
          rewrite Hne, <- (I3 x) by (right; exact Hx).
          destruct (assoc (src x) (columns cur)); reflexivity.
        * intros x Hx Hmv. unfold labels. cbn [columns].
          rewrite map_app, in_app_iff. cbn [map fst In].
          intros [Hin | [Heq | []]].
          -- apply (I4 x); [right; exact Hx | exact Hmv | exact Hin].
          -- apply (Hne_todo x Hx). symmetry. exact Heq. }
    destruct Hstep as (Hn' & Hndl' & I2' & I3' & I4').
    assert (Hlist : ((done ++ [s]) ++ todo)%list = (done ++ s :: todo)%list).
    { rewrite <- app_assoc. reflexivity. }
    specialize (IH (done ++ [s])%list (normalize_step cur s (src s))).
    rewrite Hlist in IH.
    apply IH; assumption.
Qed.

Lemma STD_COLS_NoDup : List.NoDup STD_COLS.
Proof.
  unfold STD_COLS.
  repeat (constructor; [cbn [In]; intuition discriminate |]).
  constructor.
Qed.

(** The normalised frame under a column map that renames without
    collisions. *)
Lemma normalize_columns_spec_aux (df : frame) (colmap : gmap string string) :
  let src := fun std => default std (colmap !! std) in
  List.NoDup (labels df) ->
  List.NoDup (map src STD_COLS) ->
  (forall std, In std STD_COLS -> src std <> std ->
               ~ In (src std) STD_COLS /\ ~ In std (labels df)) ->
  normalize_columns df colmap
  = Some (mkFrame (nrows df)
            (map (fun std => (std, source_column src df std)) STD_COLS)).
Proof.
  intros src Hnd Hinj Hcross.
  pose proof (normalize_fold src df STD_COLS [] df) as Hfold.
  cbn [app] in Hfold.
  destruct Hfold as (Hn & Hndl & Hcols).
  - exact STD_COLS_NoDup.
  - intros s1 s2 H1 H2 Heq. apply (NoDup_map_injective src STD_COLS); assumption.
  - intros s Hs Hmv. apply (Hcross s Hs Hmv).
  - reflexivity.
  - exact Hnd.
  - intros s [].
  - intros s _. reflexivity.
  - intros s Hs Hmv. apply (Hcross s Hs Hmv).
  - unfold normalize_columns.
    change (fun d std => normalize_step d std (default std (colmap !! std)))
      with (fun d std => normalize_step d std (src std)).
    rewrite (select_unique (source_column src df) STD_COLS _ Hndl Hcols).
    cbn [option_map]. rewrite Hn. reflexivity.
Qed.

(** X15: when the labels of the frame are distinct, no two standard names
    are mapped to the same source, and a standard name mapped to another
    header is mapped to one that is no standard name while the frame has no
    column of the standard name yet, [normalize_columns] returns the frame
    with exactly the standard columns in their order and the same number of
    rows, each column holding the cells of its source column, or [None] in
    every row when the frame has no such column; the other columns are
    dropped. *)
Theorem normalize_columns_spec (df : frame) (colmap : gmap string string) :
  let src := fun std => default std (colmap !! std) in
  List.NoDup (labels df) ->
  List.NoDup (map src STD_COLS) ->
  (forall std, In std STD_COLS -> src std <> std ->
               ~ In (src std) STD_COLS /\ ~ In std (labels df)) ->
  normalize_columns df colmap
  = Some (mkFrame (nrows df)
            (map (fun std => (std, source_column src df std)) STD_COLS)).
Proof. exact (normalize_columns_spec_aux df colmap). Qed.

Lemma normalize_columns_spec_witness :
  normalize_columns sample_frame (<["entity" := "Entity"]> ∅)
  = Some (mkFrame 2
            (map (fun std =>
                    (std, source_column
                            (fun std => default std ((<["entity" := "Entity"]> ∅ : gmap string string) !! std))
                            sample_frame std))
               STD_COLS)).
Proof.
  apply (normalize_columns_spec sample_frame (<["entity" := "Entity"]> ∅)).
  - repeat (constructor; [cbn [In]; intuition discriminate |]). constructor.
  - vm_compute. repeat (constructor; [cbn [In]; intuition discriminate |]). constructor.
  - intros std Hstd. cbn [STD_COLS In] in Hstd.
    repeat (destruct Hstd as [<- | Hstd];
            [vm_compute; intros Hne; try (exfalso; apply Hne; reflexivity);
             split; intuition discriminate |]).
    destruct Hstd.
Defined.

Lemma step_loses_source (cur : frame) (std src : string) :
  src <> std -> ~ In src (labels (normalize_step cur std src)).
Proof.
  intros Hne. unfold normalize_step. destruct (has_column src cur) eqn:Hhas.
  - intros Hin. apply In_labels_rename in Hin.
    destruct Hin as [Heq | [Hneq _]]; congruence.
  - apply has_column_false in Hhas. intros Hin.
    apply In_labels_set_none in Hin. destruct Hin as [Hin | Heq]; [| congruence].
    apply Hhas. exact Hin.
Qed.

Lemma step_keeps_absent (cur : frame) (std src k : string) :
  ~ In k (labels cur) -> k <> std -> ~ In k (labels (normalize_step cur std src)).
Proof.
  intros Hout Hne. unfold normalize_step. destruct (has_column src cur).
  - intros Hin. apply In_labels_rename in Hin. destruct Hin as [Heq | [_ Hin]];
      [congruence | contradiction].
  - intros Hin. apply In_labels_set_none in Hin. destruct Hin as [Hin | Heq];
      [contradiction | congruence].
Qed.

Lemma fold_keeps_absent (src : string -> string) (todo : list string) (cur : frame)
    (k : string) :
  ~ In k (labels cur) -> ~ In k todo ->
  ~ In k (labels (fold_left (fun d std => normalize_step d std (src std)) todo cur)).
Proof.
  revert cur. induction todo as [| s todo IH]; intros cur Hout Hk; cbn [fold_left].
  - exact Hout.
  - apply IH.
    + apply step_keeps_absent; [exact Hout |]. intros ->. apply Hk. left. reflexivity.
    + intros Hin. apply Hk. right. exact Hin.
Qed.

(** X16: when the column map sends a standard name to an earlier standard
    name, [normalize_columns] ends in the [KeyError] of the final column
    selection whatever the frame holds: the earlier column is renamed away
    (or was never there) and nothing brings it back. *)
Theorem normalize_columns_key_error (df : frame) (colmap : gmap string string)
    (std1 std2 : string) (before between after : list string) :
  STD_COLS = (before ++ std1 :: between ++ std2 :: after)%list ->
  colmap !! std2 = Some std1 ->
  normalize_columns df colmap = None.
Proof.
  intros Hstd Hmap.
  pose proof STD_COLS_NoDup as Hnd. rewrite Hstd in Hnd.
  assert (Hne : std1 <> std2).
  { apply NoDup_remove_2 in Hnd. intros ->. apply Hnd.
    apply in_or_app. right. apply in_or_app. right. left. reflexivity. }
  assert (Hafter : ~ In std1 after).
  { apply NoDup_remove_2 in Hnd. intros Hin. apply Hnd.
    apply in_or_app. right. apply in_or_app. right. right. exact Hin. }
  unfold normalize_columns.
  set (step := fun d std => normalize_step d std (default std (colmap !! std))).
  assert (Hgone : ~ In std1 (labels (fold_left step STD_COLS df))).
  { rewrite Hstd.
    replace (before ++ std1 :: between ++ std2 :: after)%list
      with ((before ++ std1 :: between) ++ std2 :: after)%list
      by (rewrite <- app_assoc; reflexivity).
    rewrite fold_left_app. cbn [fold_left].
    apply (fold_keeps_absent (fun std => default std (colmap !! std))); [| exact Hafter].
    subst step. cbn beta. rewrite Hmap. cbn [default from_option].
    apply step_loses_source. exact Hne. }
  rewrite (select_missing std1 STD_COLS _); [reflexivity | | exact Hgone].
  rewrite Hstd. apply in_or_app. right. left. reflexivity.
Qed.

Lemma normalize_columns_key_error_witness :
  normalize_columns sample_frame (<["account_id" := "entity"]> (<["entity" := "Entity"]> ∅))
  = None.
Proof.
  exact (normalize_columns_key_error sample_frame
           (<["account_id" := "entity"]> (<["entity" := "Entity"]> ∅))
           "entity" "account_id" [] []
           ["account_name"; "period_start_date"; "period_end_date";
            "gl_ending_balance"; "subledger_ending_balance";
            "preparer"; "prepared_on"; "approver"; "approved_on";
            "reconciling_items_count"; "items_over_aging_threshold";
            "action_plan_present"; "documentation_links"]
           eq_refl eq_refl).
Defined.

(** X17: the two normalisers agree: on the column map of the application,
    whose items are the standard names in their order, each with the header
    entered for it, [normalize] returns what [normalize_columns] returns on
    the same map read as a dictionary. *)
Theorem normalize_agrees (df : frame) (colmap : list (string * string)) :
  map fst colmap = STD_COLS ->
  normalize df colmap = normalize_columns df (list_to_map colmap).
Proof.
  intros Hkeys. unfold normalize, normalize_columns.
  assert (Hnd : List.NoDup (map fst colmap)) by (rewrite Hkeys; exact STD_COLS_NoDup).
  assert (Hfold : forall (items : list (string * string)) (d : frame),
             (forall k v, In (k, v) items ->
                          (list_to_map colmap : gmap string string) !! k = Some v) ->
             fold_left (fun d item => normalize_step d (fst item) (snd item)) items d
             = fold_left
                 (fun d std => normalize_step d std
                                 (default std ((list_to_map colmap : gmap string string) !! std)))
                 (map fst items) d).
  { induction items as [| [k v] items IH]; intros d Hlook; cbn [map fold_left fst snd].
    - reflexivity.
    - rewrite (Hlook k v) by (left; reflexivity). cbn [default from_option].
      apply IH. intros k' v' Hin. apply Hlook. right. exact Hin. }
  rewrite (Hfold colmap df), Hkeys; [reflexivity |].
  intros k v Hin. apply elem_of_list_to_map_1.
  - apply NoDup_ListNoDup. exact Hnd.
  - apply list_elem_of_In. exact Hin.
Qed.

Lemma normalize_agrees_witness :
  normalize sample_frame (map (fun std => (std, if String.eqb std "entity" then "Entity" else std)) STD_COLS)
  = normalize_columns sample_frame
      (list_to_map (map (fun std => (std, if String.eqb std "entity" then "Entity" else std)) STD_COLS)).
Proof.
  apply (normalize_agrees sample_frame). reflexivity.
Defined.

(** ** Collecting the input files *)



Example collect_inputs_sample :
  collect_inputs sample_fs ["data"; "notes.txt"; "missing.csv"]
  = ["data/a.xlsx"; "data/b.csv"; "notes.txt"; "missing.csv"].
Proof. reflexivity. Qed.

(** ** Equal balances *)

Lemma Prim2SF_finite_cases (x : float) :
  PrimFloat.is_nan x = false -> PrimFloat.is_infinity x = false ->
  (exists s, Prim2SF x = S754_zero s) \/ (exists s m e, Prim2SF x = S754_finite s m e).
Proof.
  intros Hnan Hinf. unfold Prim2SF. rewrite Hnan, Hinf.
  destruct (is_zero x); [left; eexists; reflexivity |].
  destruct (Z.frexp x) as [m ex].
  destruct (shr_fexp prec emax _ _ _) as [shr e'].
  destruct (shr_m shr).
  - left. eexists. reflexivity.
  - right. do 3 eexists. reflexivity.
  - left. eexists. reflexivity.
Qed.

Lemma self_difference_zero (x : float) :
  PrimFloat.is_nan x = false -> PrimFloat.is_infinity x = false ->
  Prim2SF (PrimFloat.abs (x - x)) = S754_zero false.
Proof.
  intros Hnan Hinf. rewrite abs_spec, sub_spec. unfold SF64sub, SFsub.
  destruct (Prim2SF_finite_cases x Hnan Hinf) as [[s ->] | (s & m & e & ->)].
  - destruct s; reflexivity.
  - match goal with
    | |- SFabs (binary_normalize _ _ ?d _ _) = _ =>
        assert (Hd : d = 0) by apply Z.sub_diag
    end.
    rewrite Hd. reflexivity.
Qed.

(** Zero is at most whatever a non-negative number is below. *)
Lemma zero_le_above (a p : spec_float) :
  SFleb (S754_zero false) a = true -> SFltb a p = true ->
  SFleb (S754_zero false) p = true.
Proof.
  unfold SFleb, SFltb.
  destruct a as [sa | sa | | sa ma ea], p as [sp | sp | | sp mp ep]; cbn [SFcompare];
    try discriminate; try reflexivity;
    try (destruct sa; discriminate);
    try (destruct sp; discriminate);
    try (destruct sa, sp; discriminate);
    try (destruct sa, sp; try discriminate; reflexivity);
    try (destruct sa; try discriminate; destruct sp; try discriminate; reflexivity).
Qed.

(** X20: a record whose two balances are the same finite number ties out
    under any absolute tolerance that is not negative, whatever the
    percentage tolerance. *)
Theorem equal_balances_tie_out (c : locals) :
  gl_bal c = sub_bal c ->
  PrimFloat.is_nan (gl_bal c) = false ->
  PrimFloat.is_infinity (gl_bal c) = false ->
  (0 <=? tol_abs c)%float = true ->
  tieout_pass c = true.
Proof.
  intros Heq Hnan Hinf Htol. unfold tieout_pass, variance. rewrite <- Heq.
  rewrite leb_spec, (self_difference_zero _ Hnan Hinf).
  unfold tol, py_max.
  destruct (tol_abs c <? PrimFloat.abs (gl_bal c) * tol_pct c)%float eqn:Hlt.
  - rewrite ltb_spec in Hlt. rewrite leb_spec in Htol.
    change (Prim2SF 0%float) with (S754_zero false) in Htol.
    exact (zero_le_above _ _ Htol Hlt).
  - rewrite leb_spec in Htol. exact Htol.
Qed.

Lemma equal_balances_tie_out_witness :
  exists c : locals,
    convert (H := sample_runtime) default_crit
      (<["subledger_ending_balance" := PyFloat 100000]> clean_row) = Ok c
    /\ tieout_pass c = true.
Proof.
  eexists. split; [vm_compute; reflexivity |].
  apply equal_balances_tie_out; reflexivity.
Defined.
